(** * miio-airp-exporter: the polling and export loop of [export.py]

    A shallow embedding of [export.py] (the whole program is one script) and
    the properties of its polling loop: which readings reach a gauge, what a
    failing device leaves behind, which failures the cycle survives, and how
    start-up ends when the configuration is unusable.

    Python values are an inductive type, dictionaries read from JSON are
    association lists, the gauges of the Prometheus client are one finite map
    keyed by metric name and label, and statements run in a state-and-exception
    monad whose state is that map together with the trace of everything the
    script does to the outside world. *)

From Stdlib Require Import ZArith List Bool Lia.
From Stdlib Require Import Floats.SpecFloat.
From stdpp Require Import base option gmap strings list pretty.

Local Open Scope Z_scope.
Local Open Scope list_scope.
Local Open Scope stdpp_scope.
Set Warnings "-register-all".

(** ** Python values *)

(** A device object is known by its identity only. *)
Definition handle := nat.

(** The values a JSON document or a device answer is made of, together with
    the device objects the script stores under the key ['object']. A float is
    an IEEE 754 value as [SpecFloat] describes it. *)
Inductive pyval :=
| PNone
| PBool (b : bool)
| PInt (z : Z)
| PFloat (f : spec_float)
| PStr (s : string)
| PList (l : list pyval)
| PDict (d : list (string * pyval))
| PDevice (h : handle).

(** A dictionary with string keys, as [json.load] and the device library
    produce them. The first binding of a key is the one that counts. *)
Definition dict := list (string * pyval).

Fixpoint dict_get (k : string) (d : dict) : option pyval :=
  match d with
  | [] => None
  | (k', v) :: d' => if String.eqb k k' then Some v else dict_get k d'
  end.

(** [k in d] *)
Definition dict_has (k : string) (d : dict) : bool :=
  match dict_get k d with Some _ => true | None => false end.

(** [d[k] = v] *)
Fixpoint dict_set (k : string) (v : pyval) (d : dict) : dict :=
  match d with
  | [] => [(k, v)]
  | (k', v') :: d' =>
      if String.eqb k k' then (k, v) :: d' else (k', v') :: dict_set k v d'
  end.

(** Truth value of a value, as [if v] and [not v] take it. *)
Definition truthy (v : pyval) : bool :=
  match v with
  | PNone => false
  | PBool b => b
  | PInt z => negb (z =? 0)
  | PFloat (S754_zero _) => false
  | PFloat _ => true
  | PStr s => negb (String.eqb s "")
  | PList l => match l with [] => false | _ => true end
  | PDict d => match d with [] => false | _ => true end
  | PDevice _ => true
  end.

(** [v == 0]: the integer zero, [False] and both float zeros compare equal to
    [0]; nothing else does. *)
Definition eq_zero (v : pyval) : bool :=
  match v with
  | PInt z => z =? 0
  | PBool b => negb b
  | PFloat (S754_zero _) => true
  | _ => false
  end.

(** [v == k] for a string [k]: a [str] compares equal to a [str] of the same
    characters and to nothing else. *)
Definition eq_str (k : string) (v : pyval) : bool :=
  match v with
  | PStr s => String.eqb k s
  | _ => false
  end.

(** Only lists and dictionaries are unhashable among these values. *)
Definition hashable (v : pyval) : bool :=
  match v with
  | PList _ | PDict _ => false
  | _ => true
  end.

(** [k in s] for two strings is the substring test. *)
Fixpoint is_prefix (k s : string) : bool :=
  match k, s with
  | EmptyString, _ => true
  | String a k', String b s' => if Ascii.eqb a b then is_prefix k' s' else false
  | String _ _, EmptyString => false
  end.

Fixpoint is_substring (k s : string) : bool :=
  is_prefix k s ||
  match s with
  | EmptyString => false
  | String _ s' => is_substring k s'
  end.

(** ** Exceptions *)

(** The exception classes that can reach the script: the built-in ones it
    names or provokes, those of [miio.exceptions], and any other class. *)
Inductive exc_class :=
| SystemExit
| KeyError
| TypeError
| ValueError
| AttributeError
| JSONDecodeError
| UnicodeDecodeError
| OSError
| FileNotFoundError
| PermissionError
| ConnectionError
| ConnectionRefusedError
| TimeoutError
| DeviceException
| DeviceError
| RecoverableError
| PayloadDecodeException
| DeviceInfoUnavailableException
| OtherError (name : string).

#[global] Instance exc_class_eq_dec : EqDecision exc_class.
Proof. solve_decision. Defined.

(** The proper superclasses of a class, [Exception] and above left out. *)
Definition superclasses (c : exc_class) : list exc_class :=
  match c with
  | JSONDecodeError | UnicodeDecodeError => [ValueError]
  | FileNotFoundError | PermissionError | ConnectionError | TimeoutError => [OSError]
  | ConnectionRefusedError => [ConnectionError; OSError]
  | DeviceError | PayloadDecodeException | DeviceInfoUnavailableException =>
      [DeviceException]
  | RecoverableError => [DeviceError; DeviceException]
  | _ => []
  end.

(** An exception: its class, what [str(e)] prints, and for [SystemExit] the
    exit status. *)
Record exn := Exn { exn_class : exc_class; exn_str : string; exn_code : Z }.

(** [isinstance(e, c)], which is what [except c] tests. *)
Definition isinstance (e : exn) (c : exc_class) : bool :=
  bool_decide (exn_class e = c) ||
  existsb (fun d => bool_decide (d = c)) (superclasses (exn_class e)).

Definition mk_exn (c : exc_class) (msg : string) : exn :=
  {| exn_class := c; exn_str := msg; exn_code := 1 |}.

(** ** The world around the script *)

(** What the script asks of Python and of its two libraries without showing
    how it is done: [str()] (inside [print], f-strings and [labels]), [int()]
    of a command-line argument, [float()] inside [Gauge.set], the constructor
    of a device, the metrics server and the clock. [str] of a string is that
    string; [float] of [0] and of [1] are the floats 0.0 and 1.0. *)
Definition float_zero : spec_float := S754_zero false.
Definition float_one : spec_float := S754_finite false 4503599627370496 (-52).

Class Collaborators := {
  py_str : pyval -> string;
  py_str_str : forall s, py_str (PStr s) = s;
  py_int : string -> option Z;
  py_float : pyval -> exn + spec_float;
  py_float_0 : py_float (PInt 0) = inr float_zero;
  py_float_1 : py_float (PInt 1) = inr float_one;
  MiotDevice : nat -> pyval -> pyval -> exn + handle;
  start_http_server : pyval -> option exn;
  time_sleep : pyval -> option exn
}.

(** The answer of a device to one [get_properties_for_mapping] call. *)
Inductive fetch_result :=
| Returned (properties : list pyval)
| Failed (e : exn).

(** ** State and effects *)

(** Everything the script does that can be seen from outside, in order. *)
Inductive event :=
| Stdout (line : string)
| Stderr (line : string)
| Connect (ip token : pyval)
| StartHttpServer (port : pyval)
| Fetch (h : handle)
| Sleep (interval : pyval).

(** The gauges: one float for each metric name and label whose child exists,
    which is what the server exports. *)
Record state := State {
  registry : gmap (string * string) spec_float;
  events : list event
}.

Definition initial_state : state := {| registry := ∅; events := [] |}.

Inductive outcome (A : Type) :=
| Done (a : A)
| Raised (e : exn).
Arguments Done {A} a.
Arguments Raised {A} e.

(** A statement: it changes the state and either finishes or raises. What it
    did before raising stays done. *)
Definition M (A : Type) : Type := state -> state * outcome A.

Definition ret {A} (a : A) : M A := fun st => (st, Done a).

Definition bind {A B} (m : M A) (k : A -> M B) : M B :=
  fun st =>
    match m st with
    | (st', Done a) => k a st'
    | (st', Raised e) => (st', Raised e)
    end.

Definition raise {A} (e : exn) : M A := fun st => (st, Raised e).

(** [try: body / except ...: handler], the handler deciding by the class. *)
Definition try_except {A} (body : M A) (handler : exn -> M A) : M A :=
  fun st =>
    match body st with
    | (st', Done a) => (st', Done a)
    | (st', Raised e) => handler e st'
    end.

Definition emit (ev : event) : M unit :=
  fun st => ({| registry := registry st; events := events st ++ [ev] |}, Done tt).

Definition lift {A} (r : exn + A) : M A :=
  match r with
  | inl e => raise e
  | inr a => ret a
  end.

Declare Scope py_scope.
Delimit Scope py_scope with py.
Notation "x <- m ;; k" := (bind m (fun x => k))
  (at level 100, m at next level, right associativity) : py_scope.
Notation "m ;;; k" := (bind m (fun _ => k))
  (at level 100, right associativity) : py_scope.
Local Open Scope py_scope.

(** [for x in xs: body x] *)
Fixpoint for_each {A} (xs : list A) (body : A -> M unit) : M unit :=
  match xs with
  | [] => ret tt
  | x :: xs' => body x ;;; for_each xs' body
  end.


(** ** Reading Python values *)

(** [d.get(k, default)] *)
Definition dict_get_or (k : string) (default : pyval) (d : dict) : pyval :=
  match dict_get k d with
  | Some v => v
  | None => default
  end.

(** [d[k]] *)
Definition subscript (d : dict) (k : string) : exn + pyval :=
  match dict_get k d with
  | Some v => inr v
  | None => inl (mk_exn KeyError ("'" +:+ k +:+ "'"))
  end.

(** [p.get(k)] on any value: only a dictionary has the method. *)
Definition py_get (p : pyval) (k : string) (default : pyval) : exn + pyval :=
  match p with
  | PDict d => inr (dict_get_or k default d)
  | _ => inl (mk_exn AttributeError "object has no attribute 'get'")
  end.

(** [p[k]] on any value, for a string [k]. *)
Definition py_subscript (p : pyval) (k : string) : exn + pyval :=
  match p with
  | PDict d => subscript d k
  | PStr _ => inl (mk_exn TypeError "string indices must be integers")
  | PList _ => inl (mk_exn TypeError "list indices must be integers or slices, not str")
  | _ => inl (mk_exn TypeError "object is not subscriptable")
  end.

(** [k in p] on any value, for a string [k]: a key of a dictionary, a
    substring of a string, an element of a list. *)
Definition py_in (k : string) (p : pyval) : exn + bool :=
  match p with
  | PDict d => inr (dict_has k d)
  | PStr s => inr (is_substring k s)
  | PList l => inr (existsb (eq_str k) l)
  | _ => inl (mk_exn TypeError "argument is not iterable")
  end.

(** [all(k in p for k in ks)], which stops at the first [False]. *)
Fixpoint all_in (ks : list string) (p : pyval) : exn + bool :=
  match ks with
  | [] => inr true
  | k :: ks' =>
      match py_in k p with
      | inl e => inl e
      | inr false => inr false
      | inr true => all_in ks' p
      end
  end.

(** ** The status dictionary of line 99 *)

(** [status] is kept as the list of the pairs stored into it, in the order
    of storing. Storing under a key that is already there replaces its
    value, so a lookup finds the value of the last pair stored under an equal
    key; the script looks up string constants only. *)
Definition status_dict := list (pyval * pyval).

(** [{prop['did']: prop['value'] for prop in properties
      if prop.get('code') == 0}] *)
Fixpoint status_of (properties : list pyval) : exn + status_dict :=
  match properties with
  | [] => inr []
  | PDict prop :: rest =>
      if eq_zero (dict_get_or "code" PNone prop) then
        match subscript prop "did" with
        | inl e => inl e
        | inr did =>
            match subscript prop "value" with
            | inl e => inl e
            | inr value =>
                if hashable did then
                  match status_of rest with
                  | inl e => inl e
                  | inr status => inr ((did, value) :: status)
                  end
                else inl (mk_exn TypeError "unhashable type")
            end
        end
      else status_of rest
  | _ :: _ => inl (mk_exn AttributeError "object has no attribute 'get'")
  end.

(** [status[k]] when [k in status], nothing otherwise. *)
Fixpoint status_get (k : string) (status : status_dict) : option pyval :=
  match status with
  | [] => None
  | (k', v) :: status' =>
      match status_get k status' with
      | Some w => Some w
      | None => if eq_str k k' then Some v else None
      end
  end.

(** ** The gauges of lines 33 to 43, by metric name *)

Definition power := "mi_purifier_power".
Definition mode := "mi_purifier_mode".
Definition aqi := "mi_purifier_aqi".
Definition temp := "mi_purifier_temp".
Definition humidity := "mi_purifier_humidity".
Definition fault := "mi_purifier_fault".
Definition fan_speed_rpm := "mi_purifier_fan_speed_rpm".
Definition filter_life_remaining := "mi_purifier_filter_life_remaining_percent".
Definition filter_used_time := "mi_purifier_filter_used_time".
Definition filter_left_time := "mi_purifier_filter_left_time".
Definition favorite_level := "mi_purifier_favorite_level".

(** The keys of [MIOT_MAPPING], lines 11 to 30. *)
Definition MIOT_MAPPING : list (string * (Z * Z)) :=
  [ ("power", (2, 1)); ("fault", (2, 2)); ("mode", (2, 4));
    ("humidity", (3, 1)); ("aqi", (3, 4)); ("temperature", (3, 7));
    ("filter_life_remaining", (4, 1)); ("filter_used_time", (4, 3));
    ("filter_left_time", (4, 4));
    ("fan_speed_rpm", (9, 1)); ("favorite_level", (9, 11)) ].

Definition mapping_keys : list string := map fst MIOT_MAPPING.

(** ** The script *)

Section Exporter.
Context `{Collaborators}.

(** The registry once the child of a gauge for a label is there: a child
    that is not there yet is created, and from then on exported, with the
    value 0.0. *)
Definition with_child (gauge : string) (purifier_name : pyval)
  (reg : gmap (string * string) spec_float) : gmap (string * string) spec_float :=
  match reg !! (gauge, py_str purifier_name) with
  | Some _ => reg
  | None => <[(gauge, py_str purifier_name) := float_zero]> reg
  end.

(** [gauge.labels(purifier_name)]: the child of the gauge for the label,
    which is [str] of the name. *)
Definition labels (gauge : string) (purifier_name : pyval) : M unit :=
  fun st =>
    ({| registry := with_child gauge purifier_name (registry st);
        events := events st |}, Done tt).

(** [gauge.labels(purifier_name).set(value)]: the child is looked up first,
    then the value stored in it is [float(value)], which may raise; the
    child is there by then. *)
Definition gauge_set (gauge : string) (purifier_name value : pyval) : M unit :=
  labels gauge purifier_name ;;;
  x <- lift (py_float value) ;;
  fun st =>
    ({| registry := <[(gauge, py_str purifier_name) := x]> (registry st);
        events := events st |}, Done tt).

(** [if k in status: body(status[k])] *)
Definition if_in (k : string) (status : status_dict) (body : pyval -> M unit)
  : M unit :=
  match status_get k status with
  | Some v => body v
  | None => ret tt
  end.

(** Lines 102 to 112. *)
Definition set_gauges (purifier_name : pyval) (status : status_dict) : M unit :=
  if_in "power" status (fun v =>
    gauge_set power purifier_name (if truthy v then PInt 1 else PInt 0)) ;;;
  if_in "mode" status (gauge_set mode purifier_name) ;;;
  if_in "aqi" status (gauge_set aqi purifier_name) ;;;
  if_in "temperature" status (gauge_set temp purifier_name) ;;;
  if_in "humidity" status (gauge_set humidity purifier_name) ;;;
  if_in "fault" status (gauge_set fault purifier_name) ;;;
  if_in "fan_speed_rpm" status (gauge_set fan_speed_rpm purifier_name) ;;;
  if_in "filter_life_remaining" status
    (gauge_set filter_life_remaining purifier_name) ;;;
  if_in "filter_used_time" status (gauge_set filter_used_time purifier_name) ;;;
  if_in "filter_left_time" status (gauge_set filter_left_time purifier_name) ;;;
  if_in "favorite_level" status (gauge_set favorite_level purifier_name) ;;;
  ret tt.

(** Lines 99 to 112: what is done with the answer of a device. *)
Definition process_properties (purifier_name : pyval) (properties : list pyval)
  : M unit :=
  status <- lift (status_of properties) ;;
  set_gauges purifier_name status.

(** [obj.get_properties_for_mapping()]: only a device object has the method,
    and the device decides what comes back. *)
Definition get_properties_for_mapping (fetch : handle -> fetch_result)
  (obj : pyval) : M (list pyval) :=
  match obj with
  | PDevice h =>
      emit (Fetch h) ;;;
      match fetch h with
      | Returned properties => ret properties
      | Failed e => raise e
      end
  | _ => raise (mk_exn AttributeError
                  "object has no attribute 'get_properties_for_mapping'")
  end.

(** Lines 98 to 112: the body of the [try]. *)
Definition poll_body (fetch : handle -> fetch_result)
  (obj purifier_name : pyval) : M unit :=
  properties <- get_properties_for_mapping fetch obj ;;
  process_properties purifier_name properties.

(** Lines 114 to 117: the two [except] clauses; any other class goes on. *)
Definition poll_handler (purifier_name : pyval) (e : exn) : M unit :=
  if isinstance e DeviceException then
    emit (Stdout ("Error updating '" +:+ py_str purifier_name +:+ "': "
                  +:+ exn_str e))
  else if isinstance e OSError then
    emit (Stdout ("OS Error (network?) for '" +:+ py_str purifier_name +:+ "': "
                  +:+ exn_str e))
  else raise e.

(** Lines 93 to 117: one turn of the [for] loop. *)
Definition poll_device (fetch : handle -> fetch_result) (p : pyval) : M unit :=
  obj <- lift (py_get p "object" PNone) ;;
  match obj with
  | PNone => ret tt
  | _ =>
      purifier_name <- lift (py_subscript p "name") ;;
      try_except (poll_body fetch obj purifier_name) (poll_handler purifier_name)
  end.

(** [time.sleep(polling_interval)] *)
Definition sleep (polling_interval : pyval) : M unit :=
  emit (Sleep polling_interval) ;;;
  match time_sleep polling_interval with
  | Some e => raise e
  | None => ret tt
  end.

(** Lines 92 to 119: one turn of the [while] loop. *)
Definition poll_cycle (fetch : handle -> fetch_result) (purifiers : list pyval)
  (polling_interval : pyval) : M unit :=
  for_each purifiers (poll_device fetch) ;;;
  sleep polling_interval.

(** Lines 91 to 119, stopped after [n] turns; [world c] is what the devices
    answer in turn [c]. *)
Fixpoint poll_loop (world : nat -> handle -> fetch_result)
  (purifiers : list pyval) (polling_interval : pyval) (c n : nat) : M unit :=
  match n with
  | O => ret tt
  | S n' =>
      poll_cycle (world c) purifiers polling_interval ;;;
      poll_loop world purifiers polling_interval (S c) n'
  end.

(** Lines 46 to 48. *)
Definition exit_with_error {A} (error : string) : M A :=
  emit (Stderr error) ;;;
  raise {| exn_class := SystemExit; exn_str := "1"; exn_code := 1 |}.

(** Lines 77 to 85: one turn of the initialisation loop, for the entry at
    position [i]; the entry comes back with its ['object'] key set when a
    connection was tried. *)
Definition init_purifier (i : nat) (p : pyval) : M pyval :=
  complete <- lift (all_in ["name"; "ip"; "token"] p) ;;
  if negb complete then
    emit (Stdout
      "Warning: Skipping a purifier entry due to missing 'name', 'ip', or 'token'.") ;;;
    ret p
  else
    name <- lift (py_subscript p "name") ;;
    ip <- lift (py_subscript p "ip") ;;
    emit (Stdout ("Initializing purifier '" +:+ py_str name +:+ "' at "
                  +:+ py_str ip +:+ "...")) ;;;
    try_except
      (ip <- lift (py_subscript p "ip") ;;
       token <- lift (py_subscript p "token") ;;
       emit (Connect ip token) ;;;
       h <- lift (MiotDevice i ip token) ;;
       match p with
       | PDict d => ret (PDict (dict_set "object" (PDevice h) d))
       | _ => raise (mk_exn TypeError "object does not support item assignment")
       end)
      (fun e =>
         if isinstance e DeviceException then
           name <- lift (py_subscript p "name") ;;
           emit (Stdout ("Warning: Could not connect to '" +:+ py_str name
                         +:+ "' during initialization: " +:+ exn_str e)) ;;;
           match p with
           | PDict d => ret (PDict (dict_set "object" PNone d))
           | _ => raise (mk_exn TypeError "object does not support item assignment")
           end
         else raise e).

(** Lines 76 to 85. *)
Fixpoint init_purifiers (i : nat) (purifiers : list pyval) : M (list pyval) :=
  match purifiers with
  | [] => ret []
  | p :: rest =>
      p' <- init_purifier i p ;;
      rest' <- init_purifiers (S i) rest ;;
      ret (p' :: rest')
  end.

(** Line 72: ["purifiers" not in config or not isinstance(config.get("purifiers"), list)
    or not config["purifiers"]], for a dictionary [config]. *)
Definition no_purifiers (config : dict) : bool :=
  negb (dict_has "purifiers" config) ||
  match dict_get_or "purifiers" PNone config with
  | PList l => negb (truthy (PList l))
  | _ => true
  end.

(** Lines 52 to 89: everything before the loop. [argv] is [sys.argv] and
    [load path] is what [open(path)] followed by [json.load] gives. The result
    is the list of purifiers and the polling interval. *)
Definition startup (argv : list string) (load : string -> exn + pyval)
  : M (list pyval * pyval) :=
  (if (length argv <? 2)%nat then
     exit_with_error "JSON config file must be passed as the first argument"
   else ret tt) ;;;
  config <- try_except (lift (load (nth 1 argv "")))
    (fun e =>
       if isinstance e FileNotFoundError || isinstance e JSONDecodeError then
         exit_with_error ("Error reading config file: " +:+ exn_str e)
       else raise e) ;;
  port_number <- lift (py_get config "prometheus_port" (PInt 8000)) ;;
  polling_interval <- lift (py_get config "polling_interval_seconds" (PInt 60)) ;;
  port_number <-
    (if (2 <? length argv)%nat then
       match py_int (nth 2 argv "") with
       | Some n => ret (PInt n)
       | None => exit_with_error "Error: Port number must be an integer."
       end
     else ret port_number) ;;
  match config with
  | PDict cfg =>
      (if no_purifiers cfg then
         exit_with_error "No 'purifiers' list found in the JSON config file"
       else ret tt) ;;;
      match dict_get_or "purifiers" PNone cfg with
      | PList purifiers =>
          purifiers <- init_purifiers 0 purifiers ;;
          emit (Stdout ("Starting Prometheus exporter on port "
                        +:+ py_str port_number)) ;;;
          emit (Stdout ("Polling devices every " +:+ py_str polling_interval
                        +:+ " seconds")) ;;;
          emit (StartHttpServer port_number) ;;;
          match start_http_server port_number with
          | Some e => raise e
          | None => ret (purifiers, polling_interval)
          end
      | _ => raise (mk_exn TypeError "object is not iterable")
      end
  | _ => raise (mk_exn AttributeError "object has no attribute 'get'")
  end.

(** Lines 51 to 119, the loop stopped after [n] turns. *)
Definition main (argv : list string) (load : string -> exn + pyval)
  (world : nat -> handle -> fetch_result) (n : nat) : M unit :=
  started <- startup argv load ;;
  poll_loop world (fst started) (snd started) 0 n.

(** What the interpreter makes of the script: it ends with status 0 when the
    script comes to its end, with the status of a [SystemExit] that nothing
    caught, and with a traceback on standard error and status 1 when any
    other exception is left uncaught. *)
Definition run_script (script : M unit) (st : state) : state * Z :=
  match script st with
  | (st', Done _) => (st', 0)
  | (st', Raised e) =>
      if bool_decide (exn_class e = SystemExit) then (st', exn_code e)
      else
        ({| registry := registry st';
            events := events st' ++
              [Stderr ("Traceback (most recent call last): " +:+ exn_str e)] |},
         1)
  end.

End Exporter.

(** ** The eleven lines as a table *)

(** Lines 102 to 112 again, one row for each line: the key looked up in
    [status], the gauge, and what is done to the value before it is set. *)
Definition gauge_rows : list (string * string * (pyval -> pyval)) :=
  [ ("power", power, fun v => if truthy v then PInt 1 else PInt 0);
    ("mode", mode, fun v => v);
    ("aqi", aqi, fun v => v);
    ("temperature", temp, fun v => v);
    ("humidity", humidity, fun v => v);
    ("fault", fault, fun v => v);
    ("fan_speed_rpm", fan_speed_rpm, fun v => v);
    ("filter_life_remaining", filter_life_remaining, fun v => v);
    ("filter_used_time", filter_used_time, fun v => v);
    ("filter_left_time", filter_left_time, fun v => v);
    ("favorite_level", favorite_level, fun v => v) ].

Definition set_row `{Collaborators} (purifier_name : pyval)
  (status : status_dict) (row : string * string * (pyval -> pyval)) : M unit :=
  if_in (fst (fst row)) status
    (fun v => gauge_set (snd (fst row)) purifier_name (snd row v)).

(** ** Vocabulary of the properties *)

(** [keeps R m]: whatever [m] does, finishing or raising, the state it leaves
    is related by [R] to the state it started from. *)
Definition keeps {A} (R : state -> state -> Prop) (m : M A) : Prop :=
  forall st, R st (fst (m st)).

(** The gauges are as they were. *)
Definition same_registry (st st' : state) : Prop := registry st' = registry st.

(** The points with label [l] are as they were. *)
Definition same_label (l : string) (st st' : state) : Prop :=
  forall gauge, registry st' !! (gauge, l) = registry st !! (gauge, l).

(** The point of gauge [g] with label [l] is as it was. *)
Definition same_point (g l : string) (st st' : state) : Prop :=
  registry st' !! (g, l) = registry st !! (g, l).

(** The test of line 99 on one reading. *)
Definition survives (prop : dict) : bool :=
  eq_zero (dict_get_or "code" PNone prop).

(** Two status dictionaries that answer alike on the eleven keys. *)
Definition agree (s s' : status_dict) : Prop :=
  forall k, In k mapping_keys -> status_get k s = status_get k s'.

(** The identifier of a reading is none of the eleven keys. *)
Definition unmapped (prop : dict) : Prop :=
  forall k, In k mapping_keys -> dict_get "did" prop <> Some (PStr k).

(** A reading that is fit to be stored: it is dropped by line 99, or it has
    a hashable identifier and a value. *)
Definition storable (prop : dict) : Prop :=
  survives prop = false \/
  exists did value, dict_get "did" prop = Some did /\ hashable did = true /\
                    dict_get "value" prop = Some value.

Definition row_key (row : string * string * (pyval -> pyval)) : string :=
  fst (fst row).
Definition row_gauge (row : string * string * (pyval -> pyval)) : string :=
  snd (fst row).

(** No reading that passes line 99 in [after] carries the identifier [k]. *)
Definition not_stored_later (k : string) (after : list pyval) : Prop :=
  forall prop, In (PDict prop) after -> survives prop = true ->
               dict_get "did" prop <> Some (PStr k).

(** The state after one more line on standard output. *)
Definition logged (line : string) (st : state) : state :=
  {| registry := registry st; events := events st ++ [Stdout line] |}.

(** The test of line 93 on an entry of the list. *)
Definition handle_absent (p : pyval) : bool :=
  match p with
  | PDict d =>
      match dict_get_or "object" PNone d with
      | PNone => true
      | _ => false
      end
  | _ => false
  end.

Definition live (p : pyval) : bool := negb (handle_absent p).

(** The conditions under which the script must not start. *)
Inductive startup_fatal `{Collaborators} (argv : list string) (load : string -> exn + pyval)
  : Prop :=
| no_config_argument :
    (length argv < 2)%nat -> startup_fatal argv load
| config_file_missing e :
    (2 <= length argv)%nat ->
    load (nth 1 argv "") = inl e -> isinstance e FileNotFoundError = true ->
    startup_fatal argv load
| config_file_malformed e :
    (2 <= length argv)%nat ->
    load (nth 1 argv "") = inl e -> isinstance e JSONDecodeError = true ->
    startup_fatal argv load
| port_not_an_integer config :
    (2 < length argv)%nat ->
    load (nth 1 argv "") = inr config ->
    py_int (nth 2 argv "") = None ->
    startup_fatal argv load
| purifiers_absent cfg :
    (2 <= length argv)%nat ->
    load (nth 1 argv "") = inr (PDict cfg) ->
    dict_get "purifiers" cfg = None ->
    startup_fatal argv load
| purifiers_not_a_nonempty_list cfg v :
    (2 <= length argv)%nat ->
    load (nth 1 argv "") = inr (PDict cfg) ->
    dict_get "purifiers" cfg = Some v ->
    (forall p ps, v <> PList (p :: ps)) ->
    startup_fatal argv load.

Definition exit_1 : exn :=
  {| exn_class := SystemExit; exn_str := "1"; exn_code := 1 |}.

Definition complained (diagnostic : string) (st : state) : state :=
  {| registry := registry st; events := events st ++ [Stderr diagnostic] |}.

(** ** Vocabulary of the further properties *)

(** The handles fetched, in the order of fetching. *)
Fixpoint fetches (evs : list event) : list handle :=
  match evs with
  | [] => []
  | Fetch h :: evs' => h :: fetches evs'
  | _ :: evs' => fetches evs'
  end.

(** The intervals slept, in order. *)
Fixpoint sleeps (evs : list event) : list pyval :=
  match evs with
  | [] => []
  | Sleep interval :: evs' => interval :: sleeps evs'
  | _ :: evs' => sleeps evs'
  end.

(** The device object of an entry, when it has one. *)
Definition handle_of (p : pyval) : option handle :=
  match p with
  | PDict d =>
      match dict_get_or "object" PNone d with
      | PDevice h => Some h
      | _ => None
      end
  | _ => None
  end.

(** The device objects of a list of entries, in the order of the list. *)
Fixpoint handles (ps : list pyval) : list handle :=
  match ps with
  | [] => []
  | p :: ps' =>
      match handle_of p with
      | Some h => h :: handles ps'
      | None => handles ps'
      end
  end.

(** The trace grew by events that all satisfy [ok], and nothing else of it
    changed. *)
Definition emits (ok : event -> Prop) (st st' : state) : Prop :=
  exists evs, events st' = events st ++ evs /\ List.Forall ok evs.

(** What the loop may do to the outside: print, fetch and sleep. *)
Definition polling_event (ev : event) : Prop :=
  match ev with
  | Stdout _ | Fetch _ | Sleep _ => True
  | _ => False
  end.

(** What the start may do to the outside: print, complain, connect and start
    the server. *)
Definition startup_event (ev : event) : Prop :=
  match ev with
  | Stdout _ | Stderr _ | Connect _ _ | StartHttpServer _ => True
  | _ => False
  end.

(** Every point that was published still is. *)
Definition no_eviction (st st' : state) : Prop :=
  forall k, is_Some (registry st !! k) -> is_Some (registry st' !! k).

(** An element of an answer on which line 99 does not raise. *)
Definition readable (r : pyval) : Prop :=
  match r with
  | PDict prop => storable prop
  | _ => False
  end.

(** What the initialisation may make of an entry: leave it, or set its
    ['object'] to [None] or to a device object. *)
Definition init_related (p p' : pyval) : Prop :=
  p' = p \/
  exists d, p = PDict d /\
    (p' = PDict (dict_set "object" PNone d) \/
     exists h, p' = PDict (dict_set "object" (PDevice h) d)).

(** The same handles have been fetched. *)
Definition same_fetches (st st' : state) : Prop :=
  fetches (events st') = fetches (events st).


(** [float()] accepts whatever the rows would set from [status]. *)
Definition accepted `{Collaborators} (status : status_dict)
  (rows : list (string * string * (pyval -> pyval))) : Prop :=
  forall row w, In row rows -> status_get (row_key row) status = Some w ->
                exists x, py_float (snd row w) = inr x.

(** An answer of a device that a turn of the loop gets over: a failure of
    one of the two caught classes, or readings from which [status] is built
    and all of whose values [float()] accepts. *)
Definition survivable `{Collaborators} (answer : fetch_result) : Prop :=
  match answer with
  | Failed e => isinstance e DeviceException || isinstance e OSError = true
  | Returned properties =>
      exists status, status_of properties = inr status /\
                     accepted status gauge_rows
  end.

(** An entry as a successful connection leaves it: a dictionary with a
    device object and a name. *)
Definition device_entry (p : pyval) (h : handle) : Prop :=
  exists d name, p = PDict d /\ dict_get "object" d = Some (PDevice h) /\
                 dict_get "name" d = Some name.

(** The metric names of the eleven gauges. *)
Definition gauge_names : list string := map row_gauge gauge_rows.

(** ** A laboratory *)

(** Stand-ins for Python and the two libraries, to run the script on examples:
    [str] and [int] know decimal numbers, [float] takes numbers and refuses
    the rest, the address 0.0.0.0 cannot be connected to, and the server and
    the clock never fail. *)
Definition lab_str (v : pyval) : string :=
  match v with
  | PStr s => s
  | PNone => "None"
  | PBool true => "True"
  | PBool false => "False"
  | PInt z => pretty z
  | _ => "<object>"
  end.

Fixpoint lab_digits (s : string) (acc : Z) : option Z :=
  match s with
  | EmptyString => Some acc
  | String c s' =>
      let n := Z.of_nat (Ascii.nat_of_ascii c) in
      if (48 <=? n) && (n <=? 57) then lab_digits s' (10 * acc + (n - 48))
      else None
  end.

Definition lab_int (s : string) : option Z :=
  match s with
  | EmptyString => None
  | _ => lab_digits s 0
  end.

Definition lab_float (v : pyval) : exn + spec_float :=
  match v with
  | PBool b => inr (if b then float_one else float_zero)
  | PInt 0 => inr float_zero
  | PInt 1 => inr float_one
  | PInt z => inr (binary_normalize 53 1024 z 0 false)
  | PFloat f => inr f
  | PStr _ => inl (mk_exn ValueError "could not convert string to float")
  | _ => inl (mk_exn TypeError "float() argument must be a string or a real number")
  end.

Definition lab_device (i : nat) (ip token : pyval) : exn + handle :=
  match ip with
  | PStr "0.0.0.0" => inl (mk_exn DeviceException "Unable to discover the device")
  | _ => inr i
  end.

Definition lab : Collaborators := {|
  py_str := lab_str;
  py_str_str := fun s => eq_refl;
  py_int := lab_int;
  py_float := lab_float;
  py_float_0 := eq_refl;
  py_float_1 := eq_refl;
  MiotDevice := lab_device;
  start_http_server := fun _ => None;
  time_sleep := fun _ => None
|}.

(** The configuration of the scenario in the specification, with more
    purifiers, and some answers a device can give. *)
Definition living_room_entry : dict :=
  [("name", PStr "living_room"); ("ip", PStr "10.0.0.5"); ("token", PStr "abc")].

Definition bedroom_entry : dict :=
  [("name", PStr "bedroom"); ("ip", PStr "10.0.0.6"); ("token", PStr "def")].

Definition attic_entry : dict :=
  [("name", PStr "attic"); ("ip", PStr "0.0.0.0"); ("token", PStr "0")].

Definition tokenless_entry : dict :=
  [("name", PStr "cellar"); ("ip", PStr "10.0.0.7")].

Definition scenario_config : pyval :=
  PDict [("purifiers", PList [PDict living_room_entry]);
         ("polling_interval_seconds", PInt 1)].

Definition house_config : pyval :=
  PDict [("purifiers",
          PList [PDict tokenless_entry; PDict attic_entry;
                 PDict living_room_entry; PDict bedroom_entry])].

(** An entry after a successful connection. *)
Definition connected (h : handle) (entry : dict) : dict :=
  dict_set "object" (PDevice h) entry.

Definition reading_entry (did : string) (code : Z) (value : pyval) : dict :=
  [("did", PStr did); ("siid", PInt 2); ("piid", PInt 1);
   ("code", PInt code); ("value", value)].

Definition reading (did : string) (code : Z) (value : pyval) : pyval :=
  PDict (reading_entry did code value).

(** A property the device could not read: an error code and no value. *)
Definition error_entry : dict :=
  [("did", PStr "mode"); ("siid", PInt 2); ("piid", PInt 4);
   ("code", PInt (-4001))].

(** A reading without a status code. *)
Definition codeless_entry : dict :=
  [("did", PStr "power"); ("siid", PInt 2); ("piid", PInt 1);
   ("value", PBool false)].

(** A reading of a property the script does not know. *)
Definition buzzer_entry : dict :=
  [("did", PStr "buzzer"); ("siid", PInt 6); ("piid", PInt 1);
   ("code", PInt 0); ("value", PBool true)].

(** A reading that says it succeeded and carries no value. *)
Definition valueless_entry : dict :=
  [("did", PStr "power"); ("siid", PInt 2); ("piid", PInt 1);
   ("code", PInt 0)].

Definition unreachable : exn :=
  mk_exn DeviceException "No response from the device".

(** The device of the scenario: it answers in the first cycle and cannot be
    reached afterwards. *)
Definition scenario_world (c : nat) (h : handle) : fetch_result :=
  match c with
  | O => Returned [reading "power" 0 (PBool true); reading "aqi" 0 (PInt 12)]
  | _ => Failed unreachable
  end.

(** Device 0 answers, every other device cannot be reached. *)
Definition one_healthy (h : handle) : fetch_result :=
  match h with
  | O => Returned [reading "power" 0 (PBool true); reading "aqi" 0 (PInt 12)]
  | _ => Failed unreachable
  end.

(** Device 0 sends a reading without a value, device 1 answers well. *)
Definition one_malformed (h : handle) : fetch_result :=
  match h with
  | O => Returned [PDict valueless_entry]
  | _ => Returned [reading "aqi" 0 (PInt 12)]
  end.

(** A second laboratory, in which a token that is not a string makes the
    constructor raise [TypeError]. *)
Definition strict_device (i : nat) (ip token : pyval) : exn + handle :=
  match token with
  | PStr _ => lab_device i ip token
  | _ => inl (mk_exn TypeError "token must be a string")
  end.

Definition strict_lab : Collaborators := {|
  py_str := lab_str;
  py_str_str := fun s => eq_refl;
  py_int := lab_int;
  py_float := lab_float;
  py_float_0 := eq_refl;
  py_float_1 := eq_refl;
  MiotDevice := strict_device;
  start_http_server := fun _ => None;
  time_sleep := fun _ => None
|}.

(** An entry whose token is a number. *)
Definition numbered_entry : dict :=
  [("name", PStr "hall"); ("ip", PStr "10.0.0.8"); ("token", PInt 42)].

(** An entry without a token that brings an ['object'] of its own. *)
Definition stray_entry : dict :=
  [("name", PStr "cellar"); ("ip", PStr "10.0.0.7"); ("object", PInt 5)].

Definition stray_config : pyval :=
  PDict [("purifiers", PList [PDict stray_entry; PDict living_room_entry])].

(** A list of purifiers whose first entry is a string. *)
Definition string_config : pyval :=
  PDict [("purifiers", PList [PStr "cellar"; PDict living_room_entry])].

(** Every device answers well in every cycle. *)
Definition all_healthy (c : nat) (h : handle) : fetch_result :=
  Returned [reading "aqi" 0 (PInt 12)].

(** A registry in which a device that is no longer configured has a point. *)
Definition old_state : state :=
  {| registry := {[ (power, "garage") := float_one ]}; events := [] |}.

(** * Properties *)

Section Properties.
Context `{Collaborators}.

(** ** Running statements *)

Lemma bind_done {A B} (m : M A) (k : A -> M B) st st' a :
  m st = (st', Done a) -> bind m k st = k a st'.
Proof. intros Hm. unfold bind. now rewrite Hm. Qed.

Lemma bind_raised {A B} (m : M A) (k : A -> M B) st st' e :
  m st = (st', Raised e) -> bind m k st = (st', Raised e).
Proof. intros Hm. unfold bind. now rewrite Hm. Qed.

Lemma lift_inr {A B} (a : A) (k : A -> M B) st : bind (lift (inr a)) k st = k a st.
Proof. reflexivity. Qed.

Lemma lift_inl {A B} (e : exn) (k : A -> M B) st :
  bind (lift (inl e)) k st = (st, Raised e).
Proof. reflexivity. Qed.

Lemma for_each_app {A} (xs ys : list A) (body : A -> M unit) st :
  for_each (xs ++ ys) body st =
  (for_each xs body ;;; for_each ys body) st.
Proof.
  revert st. induction xs as [|x xs IH]; intros st; simpl.
  - reflexivity.
  - unfold bind. destruct (body x st) as [st1 [[]|e]]; [|reflexivity].
    rewrite IH. reflexivity.
Qed.

(** ** Setting a gauge *)

Lemma gauge_set_accepted gauge name v x st :
  py_float v = inr x ->
  gauge_set gauge name v st
  = ({| registry := <[(gauge, py_str name) := x]> (registry st);
        events := events st |}, Done tt).
Proof.
  intros Hx. unfold gauge_set, labels, with_child, bind, lift. rewrite Hx. simpl.
  destruct (registry st !! (gauge, py_str name)); [reflexivity|].
  now rewrite insert_insert_eq.
Qed.

Lemma gauge_set_refused gauge name v e st :
  py_float v = inl e ->
  gauge_set gauge name v st
  = ({| registry := with_child gauge name (registry st); events := events st |},
     Raised e).
Proof.
  intros He. unfold gauge_set, labels, bind, lift. now rewrite He.
Qed.

Lemma with_child_other gauge name reg k :
  (gauge, py_str name) <> k -> with_child gauge name reg !! k = reg !! k.
Proof.
  intros Hne. unfold with_child.
  destruct (reg !! (gauge, py_str name)); [reflexivity|].
  now apply lookup_insert_ne.
Qed.

Lemma with_child_same gauge name reg :
  with_child gauge name reg !! (gauge, py_str name)
  = Some (default float_zero (reg !! (gauge, py_str name))).
Proof.
  unfold with_child.
  destruct (reg !! (gauge, py_str name)) as [y|] eqn:Hy; simpl.
  - exact Hy.
  - apply lookup_insert_eq.
Qed.

(** Setting a gauge leaves the trace and every other point alone. *)
Lemma gauge_set_events gauge name v st :
  events (fst (gauge_set gauge name v st)) = events st.
Proof.
  destruct (py_float v) as [e|x] eqn:Hv.
  - now rewrite (gauge_set_refused gauge name v e st Hv).
  - now rewrite (gauge_set_accepted gauge name v x st Hv).
Qed.

Lemma gauge_set_other gauge name v st k :
  (gauge, py_str name) <> k ->
  registry (fst (gauge_set gauge name v st)) !! k = registry st !! k.
Proof.
  intros Hne. destruct (py_float v) as [e|x] eqn:Hv.
  - rewrite (gauge_set_refused gauge name v e st Hv). simpl.
    now apply with_child_other.
  - rewrite (gauge_set_accepted gauge name v x st Hv). simpl.
    now apply lookup_insert_ne.
Qed.

Lemma gauge_set_Done gauge name v st st' u :
  gauge_set gauge name v st = (st', Done u) ->
  exists x, py_float v = inr x /\
    st' = {| registry := <[(gauge, py_str name) := x]> (registry st);
             events := events st |}.
Proof.
  destruct (py_float v) as [e|x] eqn:Hv.
  - now rewrite (gauge_set_refused gauge name v e st Hv).
  - rewrite (gauge_set_accepted gauge name v x st Hv). intros [= <-]. now exists x.
Qed.

(** ** What a statement leaves alone *)

Section Keeping.
Variable R : state -> state -> Prop.
Hypothesis R_refl : forall st, R st st.
Hypothesis R_trans : forall a b c, R a b -> R b c -> R a c.
Hypothesis R_events : forall st ev,
  R st {| registry := registry st; events := events st ++ [ev] |}.

Lemma keeps_ret {A} (a : A) : keeps R (ret a).
Proof. intros st. apply R_refl. Qed.

Lemma keeps_raise {A} (e : exn) : keeps R (raise (A:=A) e).
Proof. intros st. apply R_refl. Qed.

Lemma keeps_lift {A} (r : exn + A) : keeps R (lift r).
Proof. destruct r; [apply keeps_raise | apply keeps_ret]. Qed.

Lemma keeps_emit ev : keeps R (emit ev).
Proof. intros st. apply R_events. Qed.

Lemma keeps_bind {A B} (m : M A) (k : A -> M B) :
  keeps R m -> (forall a, keeps R (k a)) -> keeps R (bind m k).
Proof.
  intros Hm Hk st. unfold bind. specialize (Hm st).
  destruct (m st) as [st1 [a|e]]; simpl in *.
  - eapply R_trans; [exact Hm | apply Hk].
  - exact Hm.
Qed.

Lemma keeps_try {A} (body : M A) (handler : exn -> M A) :
  keeps R body -> (forall e, keeps R (handler e)) -> keeps R (try_except body handler).
Proof.
  intros Hb Hh st. unfold try_except. specialize (Hb st).
  destruct (body st) as [st1 [a|e]]; simpl in *.
  - exact Hb.
  - eapply R_trans; [exact Hb | apply Hh].
Qed.

Lemma keeps_for_each {A} (xs : list A) (body : A -> M unit) :
  (forall x, In x xs -> keeps R (body x)) -> keeps R (for_each xs body).
Proof.
  induction xs as [|x xs IH]; intros Hb; simpl.
  - apply keeps_ret.
  - apply keeps_bind; [apply Hb; now left | intros _; apply IH].
    intros y Hy. apply Hb. now right.
Qed.

Lemma keeps_if_in k status (body : pyval -> M unit) :
  (forall v, status_get k status = Some v -> keeps R (body v)) ->
  keeps R (if_in k status body).
Proof.
  intros Hb. unfold if_in. destruct (status_get k status); [now apply Hb | apply keeps_ret].
Qed.

End Keeping.

Lemma same_registry_refl st : same_registry st st.
Proof. reflexivity. Qed.

Lemma same_registry_trans a b c :
  same_registry a b -> same_registry b c -> same_registry a c.
Proof. unfold same_registry. congruence. Qed.

Lemma same_label_refl l st : same_label l st st.
Proof. intros g. reflexivity. Qed.

Lemma same_label_trans l a b c :
  same_label l a b -> same_label l b c -> same_label l a c.
Proof. intros Hab Hbc g. rewrite Hbc. apply Hab. Qed.

Lemma same_point_refl g l st : same_point g l st st.
Proof. reflexivity. Qed.

Lemma same_point_trans g l a b c :
  same_point g l a b -> same_point g l b c -> same_point g l a c.
Proof. unfold same_point. congruence. Qed.

Lemma gauge_set_other_label l gauge name v :
  py_str name <> l -> keeps (same_label l) (gauge_set gauge name v).
Proof.
  intros Hne st g. apply gauge_set_other. congruence.
Qed.

Lemma gauge_set_other_gauge g l gauge name v :
  gauge <> g -> keeps (same_point g l) (gauge_set gauge name v).
Proof.
  intros Hne st. unfold same_point. apply gauge_set_other. congruence.
Qed.

Lemma set_gauges_rows name status :
  set_gauges name status = for_each gauge_rows (set_row name status).
Proof. reflexivity. Qed.

Lemma set_gauges_other_label l name status :
  py_str name <> l -> keeps (same_label l) (set_gauges name status).
Proof.
  intros Hne. rewrite set_gauges_rows.
  apply (keeps_for_each _ (same_label_refl l) (same_label_trans l)).
  intros row _. apply (keeps_if_in _ (same_label_refl l)).
  intros v _. now apply gauge_set_other_label.
Qed.

(** ** The property mapper: which readings reach [status] *)

Lemma survives_code prop :
  survives prop = true ->
  exists code, dict_get "code" prop = Some code /\ eq_zero code = true.
Proof.
  unfold survives, dict_get_or. destruct (dict_get "code" prop) as [code|].
  - intros Hz. now exists code.
  - discriminate.
Qed.

Lemma status_of_cons_dropped prop rest :
  survives prop = false -> status_of (PDict prop :: rest) = status_of rest.
Proof. unfold survives. intros Hs. simpl. now rewrite Hs. Qed.

(** A reading that fails the test of line 99 may as well not be there. *)
Lemma status_of_dropped before prop after :
  survives prop = false ->
  status_of (before ++ PDict prop :: after) = status_of (before ++ after).
Proof.
  intros Hs. induction before as [|r before IH].
  - now apply status_of_cons_dropped.
  - destruct r; try reflexivity. simpl. rewrite IH. reflexivity.
Qed.

(** Every binding of [status] was stored from a reading of the answer that
    passed the test of line 99. *)
Lemma status_get_origin properties : forall status k v,
  status_of properties = inr status ->
  status_get k status = Some v ->
  exists prop, In (PDict prop) properties /\ survives prop = true /\
    dict_get "did" prop = Some (PStr k) /\ dict_get "value" prop = Some v.
Proof.
  induction properties as [|r rest IH]; intros status k v Hst Hget.
  - injection Hst as <-. discriminate.
  - destruct r; try discriminate. simpl in Hst.
    destruct (eq_zero (dict_get_or "code" PNone d)) eqn:Hz.
    + unfold subscript in Hst.
      destruct (dict_get "did" d) as [did|] eqn:Hdid; [|discriminate].
      destruct (dict_get "value" d) as [value|] eqn:Hval; [|discriminate].
      destruct (hashable did); [|discriminate].
      destruct (status_of rest) as [e|status'] eqn:Hrest; [discriminate|].
      injection Hst as <-. simpl in Hget.
      destruct (status_get k status') as [w|] eqn:Hw.
      * injection Hget as ->.
        destruct (IH status' k v eq_refl Hw) as (prop & Hin & Hp).
        exists prop. split; [now right | exact Hp].
      * destruct did; simpl in Hget; try discriminate.
        destruct (String.eqb k s) eqn:Hk; [|discriminate].
        apply String.eqb_eq in Hk. subst s. injection Hget as ->.
        exists d. split; [now left | now repeat split].
    + destruct (IH status k v Hst Hget) as (prop & Hin & Hp).
      exists prop. split; [now right | exact Hp].
Qed.

Lemma set_gauges_agree name s s' st :
  agree s s' -> set_gauges name s st = set_gauges name s' st.
Proof.
  intros Hag. unfold set_gauges, if_in.
  rewrite !Hag by (unfold mapping_keys; simpl; tauto). reflexivity.
Qed.

Lemma unmapped_eq_str prop did k :
  unmapped prop -> dict_get "did" prop = Some did -> In k mapping_keys ->
  eq_str k did = false.
Proof.
  intros Hun Hdid Hk. destruct did; try reflexivity. simpl.
  destruct (String.eqb k s) eqn:E; [|reflexivity].
  apply String.eqb_eq in E. subst s. now destruct (Hun k Hk).
Qed.

(** With an unmapped reading in the answer, building [status] either raises
    or gives a dictionary that answers on the eleven keys as the one built
    without it. *)
Lemma status_of_unmapped before prop after :
  unmapped prop ->
  (exists e, status_of (before ++ PDict prop :: after) = inl e) \/
  (exists s s', status_of (before ++ PDict prop :: after) = inr s' /\
                status_of (before ++ after) = inr s /\ agree s' s).
Proof.
  intros Hun. induction before as [|r before IH].
  - simpl. destruct (eq_zero (dict_get_or "code" PNone prop)).
    + unfold subscript.
      destruct (dict_get "did" prop) as [did|] eqn:Hdid; [|left; eauto].
      destruct (dict_get "value" prop) as [value|]; [|left; eauto].
      destruct (hashable did); [|left; eauto].
      destruct (status_of after) as [e|s]; [left; eauto|].
      right. exists s, ((did, value) :: s). repeat split.
      intros k Hk. simpl. rewrite (unmapped_eq_str prop did k Hun Hdid Hk).
      now destruct (status_get k s).
    + destruct (status_of after) as [e|s]; [left; eauto|].
      right. exists s, s. repeat split.
  - destruct r; try (left; simpl; eauto; fail). simpl.
    destruct IH as [[e He]|(s & s' & Hs' & Hs & Hag)].
    + left. rewrite He.
      destruct (eq_zero (dict_get_or "code" PNone d)); [|eauto].
      destruct (subscript d "did"); [eauto|].
      destruct (subscript d "value"); [eauto|].
      destruct (hashable p); eauto.
    + rewrite Hs', Hs.
      destruct (eq_zero (dict_get_or "code" PNone d)); [|right; eauto].
      destruct (subscript d "did") as [e|did]; [left; eauto|].
      destruct (subscript d "value") as [e|value]; [left; eauto|].
      destruct (hashable did); [|left; eauto].
      right. exists ((did, value) :: s), ((did, value) :: s'). repeat split.
      intros k Hk. simpl. now rewrite (Hag k Hk).
Qed.

(** With a storable unmapped reading in the answer, building [status] raises
    what it raises without it, or gives a dictionary that agrees. *)
Lemma status_of_unmapped_storable before prop after :
  unmapped prop -> storable prop ->
  match status_of (before ++ PDict prop :: after), status_of (before ++ after) with
  | inl e', inl e => e' = e
  | inr s', inr s => agree s' s
  | _, _ => False
  end.
Proof.
  intros Hun Hst. induction before as [|r before IH].
  - destruct Hst as [Hs|(did & value & Hdid & Hh & Hval)].
    + rewrite app_nil_l, status_of_cons_dropped by exact Hs. simpl.
      destruct (status_of after); [reflexivity | now intros k].
    + simpl. unfold subscript. rewrite Hdid, Hval, Hh.
      destruct (eq_zero (dict_get_or "code" PNone prop)).
      * destruct (status_of after) as [e|s]; [reflexivity|].
        intros k Hk. simpl. rewrite (unmapped_eq_str prop did k Hun Hdid Hk).
        now destruct (status_get k s).
      * destruct (status_of after); [reflexivity | now intros k].
  - destruct r; try reflexivity. simpl.
    destruct (status_of (before ++ PDict prop :: after)) as [e'|s'],
             (status_of (before ++ after)) as [e|s]; try contradiction.
    + subst e'.
      destruct (eq_zero (dict_get_or "code" PNone d)); [|reflexivity].
      destruct (subscript d "did"); [reflexivity|].
      destruct (subscript d "value"); [reflexivity|].
      destruct (hashable p); reflexivity.
    + destruct (eq_zero (dict_get_or "code" PNone d)); [|exact IH].
      destruct (subscript d "did") as [e|did]; [reflexivity|].
      destruct (subscript d "value") as [e|value]; [reflexivity|].
      destruct (hashable did); [|reflexivity].
      intros k Hk. simpl. now rewrite (IH k Hk).
Qed.

Lemma process_properties_status name properties status st :
  status_of properties = inr status ->
  process_properties name properties st = set_gauges name status st.
Proof. intros Hs. unfold process_properties. now rewrite Hs. Qed.

Lemma process_properties_raised name properties e st :
  status_of properties = inl e ->
  process_properties name properties st = (st, Raised e).
Proof. intros Hs. unfold process_properties. now rewrite Hs. Qed.

(** C3: a reading whose status code is there and is not zero is discarded,
    whatever its identifier and value: the answer is processed exactly as the
    answer without that reading, so no gauge is set from it. *)
Theorem error_status_reading_is_discarded
  (name : pyval) (before after : list pyval) (prop : dict) (code : pyval)
  (st : state) :
  dict_get "code" prop = Some code ->
  eq_zero code = false ->
  status_of (before ++ PDict prop :: after) = status_of (before ++ after) /\
  process_properties name (before ++ PDict prop :: after) st =
  process_properties name (before ++ after) st.
Proof.
  intros Hcode Hz.
  assert (Hs : survives prop = false).
  { unfold survives, dict_get_or. now rewrite Hcode. }
  split.
  - now apply status_of_dropped.
  - unfold process_properties. now rewrite status_of_dropped.
Qed.

(** C9: a reading with no status code at all is discarded like one with an
    error code, and every value found in [status] was stored from a reading
    whose status code is there and equals zero. *)
Theorem reading_without_status_code_is_discarded
  (name : pyval) (before after : list pyval) (prop : dict) (st : state) :
  dict_get "code" prop = None ->
  process_properties name (before ++ PDict prop :: after) st =
  process_properties name (before ++ after) st /\
  forall properties status k v,
    status_of properties = inr status ->
    status_get k status = Some v ->
    exists prop' code,
      In (PDict prop') properties /\
      dict_get "code" prop' = Some code /\ eq_zero code = true /\
      dict_get "did" prop' = Some (PStr k) /\ dict_get "value" prop' = Some v.
Proof.
  intros Hcode. split.
  - assert (Hs : survives prop = false).
    { unfold survives, dict_get_or. now rewrite Hcode. }
    unfold process_properties. now rewrite status_of_dropped.
  - intros properties status k v Hst Hget.
    destruct (status_get_origin properties status k v Hst Hget)
      as (prop' & Hin & Hs & Hdid & Hval).
    destruct (survives_code prop' Hs) as (code & Hc & Hz).
    exists prop', code. now repeat split.
Qed.

(** C4: a reading whose identifier is none of the eleven keys of the mapping
    table sets no gauge: processing the answer either raises before any gauge
    is touched or ends exactly as processing the answer without that reading;
    and when the reading is fit to be stored it is the latter. *)
Theorem unmapped_reading_is_discarded
  (name : pyval) (before after : list pyval) (prop : dict) (st : state) :
  (forall k, In k mapping_keys -> dict_get "did" prop <> Some (PStr k)) ->
  (process_properties name (before ++ PDict prop :: after) st =
   process_properties name (before ++ after) st \/
   exists e, process_properties name (before ++ PDict prop :: after) st =
             (st, Raised e)) /\
  (storable prop ->
   process_properties name (before ++ PDict prop :: after) st =
   process_properties name (before ++ after) st).
Proof.
  intros Hun. split.
  - destruct (status_of_unmapped before prop after Hun)
      as [[e He]|(s & s' & Hs' & Hs & Hag)].
    + right. exists e. now apply process_properties_raised.
    + left. rewrite (process_properties_status _ _ _ _ Hs'),
        (process_properties_status _ _ _ _ Hs).
      now apply set_gauges_agree.
  - intros Hst.
    pose proof (status_of_unmapped_storable before prop after Hun Hst) as Hm.
    destruct (status_of (before ++ PDict prop :: after)) as [e'|s'] eqn:Hs',
             (status_of (before ++ after)) as [e|s] eqn:Hs; try contradiction.
    + subst e'. now rewrite !process_properties_raised with (e := e).
    + rewrite (process_properties_status _ _ _ _ Hs'),
        (process_properties_status _ _ _ _ Hs).
      now apply set_gauges_agree.
Qed.

(** ** The gauges after an answer has been processed *)

Lemma rows_keep_point g l name status rows :
  (forall row, In row rows -> row_gauge row <> g) ->
  keeps (same_point g l) (for_each rows (set_row name status)).
Proof.
  intros Hne.
  apply (keeps_for_each _ (same_point_refl g l) (same_point_trans g l)).
  intros row Hin. apply (keeps_if_in _ (same_point_refl g l)).
  intros v _. apply gauge_set_other_gauge. now apply Hne.
Qed.

Lemma gauge_rows_NoDup : NoDup (map row_gauge gauge_rows).
Proof. apply (bool_decide_unpack _). vm_compute. exact I. Qed.

(** The first row of a table that sets its gauge decides that gauge, when
    no later row names it. *)
Lemma first_row_sets_gauge name status row rows v x st :
  status_get (row_key row) status = Some v ->
  py_float (snd row v) = inr x ->
  (forall r, In r rows -> row_gauge r <> row_gauge row) ->
  registry (fst (for_each (row :: rows) (set_row name status) st))
    !! (row_gauge row, py_str name) = Some x.
Proof.
  intros Hget Hx Hne. simpl for_each.
  pose proof (rows_keep_point (row_gauge row) (py_str name) name status rows Hne)
    as Hrest.
  unfold bind, set_row, if_in. fold (row_key row). rewrite Hget.
  rewrite (gauge_set_accepted _ name _ x st Hx).
  rewrite Hrest. simpl. apply lookup_insert_eq.
Qed.

(** Once an answer with a power reading in [status] has been processed, the
    power gauge holds 1.0 or 0.0, whatever happened to the gauges set after
    it. *)
Lemma power_gauge_after_processing
  (name : pyval) (properties : list pyval) (status : status_dict) (v : pyval)
  (st : state) :
  status_of properties = inr status ->
  status_get "power" status = Some v ->
  registry (fst (process_properties name properties st))
    !! (power, py_str name)
  = Some (if truthy v then float_one else float_zero).
Proof.
  intros Hst Hget. rewrite (process_properties_status _ _ _ _ Hst).
  rewrite set_gauges_rows.
  apply (first_row_sets_gauge name status
           ("power", power, fun v => if truthy v then PInt 1 else PInt 0)
           (tl gauge_rows) v).
  - exact Hget.
  - simpl. destruct (truthy v); [apply py_float_1 | apply py_float_0].
  - intros r Hin. simpl in Hin.
    repeat (destruct Hin as [<-|Hin]; [discriminate|]). destruct Hin.
Qed.

Lemma status_get_absent after status k :
  status_of after = inr status -> not_stored_later k after ->
  status_get k status = None.
Proof.
  intros Hst Hlater. destruct (status_get k status) as [v|] eqn:Hget; [|reflexivity].
  destruct (status_get_origin after status k v Hst Hget)
    as (prop & Hin & Hs & Hdid & _).
  now destruct (Hlater prop Hin Hs).
Qed.

Lemma status_get_last before prop after k v : forall status,
  status_of (before ++ PDict prop :: after) = inr status ->
  survives prop = true ->
  dict_get "did" prop = Some (PStr k) ->
  dict_get "value" prop = Some v ->
  not_stored_later k after ->
  status_get k status = Some v.
Proof.
  intros status Hst Hs Hdid Hval Hlater. revert status Hst.
  induction before as [|r before IH]; intros status Hst.
  - simpl in Hst. unfold survives in Hs. rewrite Hs in Hst.
    unfold subscript in Hst. rewrite Hdid, Hval in Hst. simpl in Hst.
    destruct (status_of after) as [e|s] eqn:Hafter; [discriminate|].
    injection Hst as <-. simpl.
    rewrite (status_get_absent after s k Hafter Hlater).
    now rewrite String.eqb_refl.
  - destruct r; try discriminate. simpl in Hst.
    destruct (status_of (before ++ PDict prop :: after)) as [e|s] eqn:Hrest.
    + destruct (eq_zero (dict_get_or "code" PNone d)); [|discriminate].
      destruct (subscript d "did"); [discriminate|].
      destruct (subscript d "value"); [discriminate|].
      destruct (hashable p); discriminate.
    + specialize (IH s eq_refl).
      destruct (eq_zero (dict_get_or "code" PNone d)).
      * destruct (subscript d "did") as [e|did]; [discriminate|].
        destruct (subscript d "value") as [e|value]; [discriminate|].
        destruct (hashable did); [|discriminate].
        injection Hst as <-. simpl. now rewrite IH.
      * injection Hst as <-. exact IH.
Qed.

(** When all rows of a table have run to the end, each gauge holds [float]
    of what its row made of the value found in [status]. *)
Lemma rows_done name status rows : forall st st',
  NoDup (map row_gauge rows) ->
  for_each rows (set_row name status) st = (st', Done tt) ->
  forall row v, In row rows -> status_get (row_key row) status = Some v ->
  exists x, py_float (snd row v) = inr x /\
            registry st' !! (row_gauge row, py_str name) = Some x.
Proof.
  induction rows as [|r rows IH]; intros st st' Hnd Hrun row v Hin Hget.
  - destruct Hin.
  - rewrite fmap_cons in Hnd. apply NoDup_cons in Hnd as [Hfresh Hnd].
    simpl in Hrun. unfold bind in Hrun.
    destruct (set_row name status r st) as [st1 [[]|e]] eqn:Hr; [|discriminate].
    destruct Hin as [->|Hin].
    + unfold set_row, if_in in Hr. fold (row_key row) in Hr. rewrite Hget in Hr.
      apply gauge_set_Done in Hr as (x & Hx & ->).
      exists x. split; [exact Hx|].
      assert (Hkeep : keeps (same_point (row_gauge row) (py_str name))
                        (for_each rows (set_row name status))).
      { apply rows_keep_point. intros r Hr Heq. apply Hfresh.
        rewrite <- Heq. apply list_elem_of_fmap. exists r. split; [reflexivity|].
        now apply list_elem_of_In. }
      specialize (Hkeep {| registry := <[(snd (fst row), py_str name):=x]> (registry st);
                           events := events st |}).
      rewrite Hrun in Hkeep. unfold same_point in Hkeep. simpl in Hkeep.
      rewrite Hkeep. apply lookup_insert_eq.
    + now apply (IH st1 st' Hnd Hrun row v).
Qed.

(** ** One device in one cycle *)

Lemma keeps_bind_lift {A B} (R : state -> state -> Prop) (r : exn + A)
  (k : A -> M B) :
  (forall st, R st st) ->
  (forall a, r = inr a -> keeps R (k a)) -> keeps R (bind (lift r) k).
Proof.
  intros Hrefl Hk. destruct r as [e|a].
  - intros st. apply Hrefl.
  - intros st. now apply (Hk a).
Qed.

Lemma same_label_events l st ev :
  same_label l st {| registry := registry st; events := events st ++ [ev] |}.
Proof. intros g. reflexivity. Qed.

Lemma same_registry_events st ev :
  same_registry st {| registry := registry st; events := events st ++ [ev] |}.
Proof. reflexivity. Qed.

Lemma get_properties_keeps R fetch obj :
  (forall st, R st st) ->
  (forall st ev, R st {| registry := registry st; events := events st ++ [ev] |}) ->
  keeps R (get_properties_for_mapping fetch obj).
Proof.
  intros Hrefl Hev st.
  destruct obj; try apply Hrefl. simpl. unfold bind, emit.
  destruct (fetch h); apply Hev.
Qed.

Lemma poll_handler_keeps R name e :
  (forall st, R st st) ->
  (forall st ev, R st {| registry := registry st; events := events st ++ [ev] |}) ->
  keeps R (poll_handler name e).
Proof.
  intros Hrefl Hev st. unfold poll_handler.
  destruct (isinstance e DeviceException); [apply Hev|].
  destruct (isinstance e OSError); [apply Hev | apply Hrefl].
Qed.

Lemma process_properties_other_label l name properties :
  py_str name <> l -> keeps (same_label l) (process_properties name properties).
Proof.
  intros Hne. unfold process_properties.
  apply (keeps_bind _ (same_label_trans l)).
  - apply keeps_lift. apply same_label_refl.
  - intros status. now apply set_gauges_other_label.
Qed.

(** Polling a device leaves alone every point whose label is not [str] of
    the name of that device. *)
Lemma poll_device_other_label fetch p l :
  (forall n, py_subscript p "name" = inr n -> py_str n <> l) ->
  keeps (same_label l) (poll_device fetch p).
Proof.
  intros Hne. unfold poll_device.
  apply keeps_bind_lift; [apply same_label_refl|]. intros obj _.
  assert (Hlive : keeps (same_label l)
    (purifier_name <- lift (py_subscript p "name") ;;
     try_except (poll_body fetch obj purifier_name) (poll_handler purifier_name))).
  { apply keeps_bind_lift; [apply same_label_refl|]. intros n Hn.
    apply (keeps_try _ (same_label_trans l)).
    - unfold poll_body. apply (keeps_bind _ (same_label_trans l)).
      + apply get_properties_keeps; [apply same_label_refl | apply same_label_events].
      + intros properties. apply process_properties_other_label. now apply Hne.
    - intros e. apply poll_handler_keeps;
        [apply same_label_refl | apply same_label_events]. }
  destruct obj; try exact Hlive. apply keeps_ret, same_label_refl.
Qed.

(** C7: polling device D, whose logical name is the string [d], changes no
    point labelled with the logical name [e] of another device when [e]
    differs from [d], whether D's fetch succeeds or not. *)
Theorem fetch_updates_only_own_points
  (fetch : handle -> fetch_result) (p : pyval) (d e : string) (st : state) :
  py_subscript p "name" = inr (PStr d) ->
  d <> e ->
  forall gauge,
    registry (fst (poll_device fetch p st)) !! (gauge, py_str (PStr e))
    = registry st !! (gauge, py_str (PStr e)).
Proof.
  intros Hname Hne gauge.
  apply (poll_device_other_label fetch p (py_str (PStr e))).
  intros n Hn. rewrite Hname in Hn. injection Hn as <-.
  rewrite !py_str_str. exact Hne.
Qed.

(** What is left of [poll_device] for a device object whose fetch raises. *)
Lemma poll_device_failed fetch d h name e st :
  dict_get "object" d = Some (PDevice h) ->
  dict_get "name" d = Some name ->
  fetch h = Failed e ->
  poll_device fetch (PDict d) st =
  poll_handler name e
    {| registry := registry st; events := events st ++ [Fetch h] |}.
Proof.
  intros Hobj Hname Hfetch.
  unfold poll_device, py_get, dict_get_or. rewrite Hobj. rewrite lift_inr.
  unfold py_subscript, subscript. rewrite Hname. rewrite lift_inr.
  unfold try_except, poll_body, get_properties_for_mapping, bind, emit.
  now rewrite Hfetch.
Qed.

(** What is left of [poll_device] for a device object that answers. *)
Lemma poll_device_returned fetch d h name properties st :
  dict_get "object" d = Some (PDevice h) ->
  dict_get "name" d = Some name ->
  fetch h = Returned properties ->
  poll_device fetch (PDict d) st =
  try_except (process_properties name properties) (poll_handler name)
    {| registry := registry st; events := events st ++ [Fetch h] |}.
Proof.
  intros Hobj Hname Hfetch.
  unfold poll_device, py_get, dict_get_or. rewrite Hobj. rewrite lift_inr.
  unfold py_subscript, subscript. rewrite Hname. rewrite lift_inr.
  unfold try_except, poll_body, get_properties_for_mapping, bind, emit.
  now rewrite Hfetch.
Qed.

Lemma try_except_registry name (body : M unit) st :
  registry (fst (try_except body (poll_handler name) st))
  = registry (fst (body st)).
Proof.
  unfold try_except. destruct (body st) as [st1 [[]|e]]; [reflexivity|].
  apply (poll_handler_keeps same_registry name e);
    [apply same_registry_refl | apply same_registry_events].
Qed.

(** C5: after a successful fetch whose answer leaves a power reading in
    [status], the power gauge of the device holds exactly 1.0 when the raw
    value is truthy and exactly 0.0 when it is falsy, whatever the raw value
    is. *)
Theorem power_gauge_is_one_or_zero
  (fetch : handle -> fetch_result) (d : dict) (h : handle) (name : pyval)
  (properties : list pyval) (status : status_dict) (v : pyval) (st : state) :
  dict_get "object" d = Some (PDevice h) ->
  dict_get "name" d = Some name ->
  fetch h = Returned properties ->
  status_of properties = inr status ->
  status_get "power" status = Some v ->
  registry (fst (poll_device fetch (PDict d) st)) !! (power, py_str name)
  = Some (if truthy v then float_one else float_zero).
Proof.
  intros Hobj Hname Hfetch Hst Hget.
  rewrite (poll_device_returned fetch d h name properties st Hobj Hname Hfetch).
  rewrite try_except_registry.
  now apply (power_gauge_after_processing name properties status v).
Qed.

Lemma sleep_keeps_registry interval : keeps same_registry (sleep interval).
Proof.
  intros st. unfold sleep, bind, emit.
  destruct (time_sleep interval); reflexivity.
Qed.

(** C2: when the fetch of device D raises, polling D leaves the whole
    registry as it was; and when no other entry of the list carries D's
    name, the points labelled with D's name are after the cycle exactly what
    they were before it. *)
Theorem failed_fetch_leaves_points_stale
  (fetch : handle -> fetch_result) (before after : list pyval) (d : dict)
  (h : handle) (name interval : pyval) (e : exn) (st : state) :
  dict_get "object" d = Some (PDevice h) ->
  dict_get "name" d = Some name ->
  fetch h = Failed e ->
  registry (fst (poll_device fetch (PDict d) st)) = registry st /\
  ((forall q n, In q (before ++ after) -> py_subscript q "name" = inr n ->
                py_str n <> py_str name) ->
   forall gauge,
     registry (fst (poll_cycle fetch (before ++ PDict d :: after) interval st))
       !! (gauge, py_str name)
     = registry st !! (gauge, py_str name)).
Proof.
  intros Hobj Hname Hfetch.
  assert (Hself : forall st0,
            registry (fst (poll_device fetch (PDict d) st0)) = registry st0).
  { intros st0. rewrite (poll_device_failed fetch d h name e st0 Hobj Hname Hfetch).
    unfold poll_handler.
    destruct (isinstance e DeviceException); [reflexivity|].
    destruct (isinstance e OSError); reflexivity. }
  split; [apply Hself|].
  intros Hunique.
  assert (Hcycle : keeps (same_label (py_str name))
            (poll_cycle fetch (before ++ PDict d :: after) interval)).
  { unfold poll_cycle. apply (keeps_bind _ (same_label_trans _)).
    - apply (keeps_for_each _ (same_label_refl _) (same_label_trans _)).
      intros q Hq. apply in_app_or in Hq as [Hq|[<-|Hq]].
      + apply poll_device_other_label. intros n Hn.
        apply (Hunique q n); [apply in_or_app; now left | exact Hn].
      + intros st0 g. now rewrite Hself.
      + apply poll_device_other_label. intros n Hn.
        apply (Hunique q n); [apply in_or_app; now right | exact Hn].
    - intros _ st0 g. now rewrite sleep_keeps_registry. }
  intros gauge. apply Hcycle.
Qed.

(** ** Failures and the cycle *)

Lemma poll_handler_caught name e st :
  isinstance e DeviceException || isinstance e OSError = true ->
  exists pre post,
    poll_handler name e st = (logged (pre +:+ py_str name +:+ post) st, Done tt).
Proof.
  intros Hc. unfold poll_handler.
  destruct (isinstance e DeviceException).
  - now exists "Error updating '", ("': " +:+ exn_str e).
  - simpl in Hc. rewrite Hc.
    now exists "OS Error (network?) for '", ("': " +:+ exn_str e).
Qed.

(** An exception that leaves [poll_device] is of neither caught class. *)
Lemma poll_device_escape fetch p st st' e :
  poll_device fetch p st = (st', Raised e) ->
  isinstance e DeviceException = false /\ isinstance e OSError = false.
Proof.
  unfold poll_device, py_get. intros Hrun.
  destruct p; try (rewrite lift_inl in Hrun; injection Hrun as _ <-; split; reflexivity).
  rewrite lift_inr in Hrun.
  assert (Hlive : forall obj,
    (purifier_name <- lift (py_subscript (PDict d) "name") ;;
     try_except (poll_body fetch obj purifier_name) (poll_handler purifier_name)) st
    = (st', Raised e) ->
    isinstance e DeviceException = false /\ isinstance e OSError = false).
  { clear Hrun. intros obj Hrun. simpl in Hrun. unfold subscript in Hrun.
    destruct (dict_get "name" d) as [name|].
    - rewrite lift_inr in Hrun. unfold try_except in Hrun.
      destruct (poll_body fetch obj name st) as [st1 [[]|e0]]; [discriminate|].
      unfold poll_handler in Hrun.
      destruct (isinstance e0 DeviceException) eqn:Hd; [discriminate|].
      destruct (isinstance e0 OSError) eqn:Ho; [discriminate|].
      injection Hrun as _ <-. now split.
    - injection Hrun as _ <-. split; reflexivity. }
  destruct (dict_get_or "object" PNone d); try (now apply (Hlive _ Hrun)).
  discriminate.
Qed.

Lemma for_each_poll_escape fetch purifiers : forall st st' e,
  for_each purifiers (poll_device fetch) st = (st', Raised e) ->
  isinstance e DeviceException = false /\ isinstance e OSError = false.
Proof.
  induction purifiers as [|p rest IH]; intros st st' e Hrun.
  - discriminate.
  - simpl in Hrun. unfold bind in Hrun.
    destruct (poll_device fetch p st) as [st1 [[]|e1]] eqn:Hp.
    + now apply (IH st1 st' e).
    + injection Hrun as _ <-. now apply (poll_device_escape fetch p st st1).
Qed.

Lemma poll_cycle_after_devices fetch purifiers interval st st' :
  for_each purifiers (poll_device fetch) st = (st', Done tt) ->
  poll_cycle fetch purifiers interval st = sleep interval st'.
Proof. intros Hrun. unfold poll_cycle. now rewrite (bind_done _ _ _ _ _ Hrun). Qed.

Lemma sleep_events interval st :
  events (fst (sleep interval st)) = events st ++ [Sleep interval].
Proof. unfold sleep, bind, emit. destruct (time_sleep interval); reflexivity. Qed.

(** C1, as the script has it: a failure of class [DeviceException] or
    [OSError] raised while the properties of a device are fetched or
    processed is caught, a line with the name of the device is printed, and
    the cycle goes on with the next device; the loop over the devices can be
    left only by a failure of another class, and when it is not left the
    cycle reaches its sleep. *)
Theorem caught_failure_stays_in_the_cycle
  (fetch : handle -> fetch_result) (d : dict) (obj name interval : pyval)
  (rest : list pyval) (e : exn) (st st1 : state) :
  dict_get "object" d = Some obj ->
  obj <> PNone ->
  dict_get "name" d = Some name ->
  poll_body fetch obj name st = (st1, Raised e) ->
  isinstance e DeviceException || isinstance e OSError = true ->
  exists pre post,
    let st2 := logged (pre +:+ py_str name +:+ post) st1 in
    poll_device fetch (PDict d) st = (st2, Done tt) /\
    poll_cycle fetch (PDict d :: rest) interval st =
    poll_cycle fetch rest interval st2 /\
    (forall st' e',
       for_each (PDict d :: rest) (poll_device fetch) st = (st', Raised e') ->
       isinstance e' DeviceException = false /\ isinstance e' OSError = false) /\
    (forall st',
       for_each (PDict d :: rest) (poll_device fetch) st = (st', Done tt) ->
       events (fst (poll_cycle fetch (PDict d :: rest) interval st))
       = events st' ++ [Sleep interval]).
Proof.
  intros Hobj Hlive Hname Hbody Hcaught.
  destruct (poll_handler_caught name e st1 Hcaught) as (pre & post & Hh).
  exists pre, post. cbv zeta.
  assert (Hdev : poll_device fetch (PDict d) st
                 = (logged (pre +:+ py_str name +:+ post) st1, Done tt)).
  { unfold poll_device, py_get, dict_get_or. rewrite Hobj, lift_inr.
    assert (Hgo : (purifier_name <- lift (py_subscript (PDict d) "name") ;;
                   try_except (poll_body fetch obj purifier_name)
                     (poll_handler purifier_name)) st
                  = (logged (pre +:+ py_str name +:+ post) st1, Done tt)).
    { simpl. unfold subscript. rewrite Hname, lift_inr.
      unfold try_except. now rewrite Hbody. }
    destruct obj; try exact Hgo. now destruct Hlive. }
  split; [exact Hdev|]. split; [|split].
  - unfold poll_cycle. simpl for_each. unfold bind at 1 2. now rewrite Hdev.
  - intros st' e'. apply for_each_poll_escape.
  - intros st' Hrun. rewrite (poll_cycle_after_devices _ _ _ _ _ Hrun).
    apply sleep_events.
Qed.

(** ** Devices without a connection handle *)

Lemma poll_device_absent fetch p st :
  handle_absent p = true -> poll_device fetch p st = (st, Done tt).
Proof.
  destruct p; try discriminate. unfold handle_absent, poll_device. simpl.
  destruct (dict_get_or "object" PNone d); try discriminate. reflexivity.
Qed.

Lemma for_each_poll_live fetch purifiers : forall st,
  for_each purifiers (poll_device fetch) st =
  for_each (List.filter live purifiers) (poll_device fetch) st.
Proof.
  induction purifiers as [|p rest IH]; intros st; [reflexivity|].
  simpl. unfold live at 1. destruct (handle_absent p) eqn:Hp; simpl.
  - unfold bind. rewrite (poll_device_absent fetch p st Hp). apply IH.
  - unfold bind. destruct (poll_device fetch p st) as [st1 [[]|e]];
      [apply IH | reflexivity].
Qed.

Lemma poll_cycle_live fetch purifiers interval st :
  poll_cycle fetch purifiers interval st =
  poll_cycle fetch (List.filter live purifiers) interval st.
Proof.
  unfold poll_cycle, bind. now rewrite for_each_poll_live.
Qed.

Lemma poll_loop_live world purifiers interval n : forall c st,
  poll_loop world purifiers interval c n st =
  poll_loop world (List.filter live purifiers) interval c n st.
Proof.
  induction n as [|n IH]; intros c st; [reflexivity|].
  simpl. unfold bind. rewrite poll_cycle_live.
  destruct (poll_cycle (world c) (List.filter live purifiers) interval st)
    as [st1 [[]|e]]; [apply IH | reflexivity].
Qed.

Lemma dict_get_set k v d : dict_get k (dict_set k v d) = Some v.
Proof.
  induction d as [|[k' v'] d IH]; simpl.
  - now rewrite String.eqb_refl.
  - destruct (String.eqb k k') eqn:E; simpl.
    + now rewrite String.eqb_refl.
    + rewrite E. exact IH.
Qed.

(** Lines 77 to 79: an entry that lacks one of the three keys stays as it
    is, with a warning. *)
Lemma init_purifier_skipped i d st :
  all_in ["name"; "ip"; "token"] (PDict d) = inr false ->
  exists line, init_purifier i (PDict d) st = (logged line st, Done (PDict d)).
Proof.
  intros Hall. unfold init_purifier. rewrite Hall.
  eexists. reflexivity.
Qed.

(** Lines 83 to 85: an entry whose connection raises [DeviceException] gets
    [None] for its object. *)
Lemma init_purifier_failed i d name ip token e st :
  dict_get "name" d = Some name ->
  dict_get "ip" d = Some ip ->
  dict_get "token" d = Some token ->
  MiotDevice i ip token = inl e ->
  isinstance e DeviceException = true ->
  exists st1,
    init_purifier i (PDict d) st
    = (st1, Done (PDict (dict_set "object" PNone d))).
Proof.
  intros Hname Hip Htoken Hconn Hexc. unfold init_purifier.
  assert (Hall : all_in ["name"; "ip"; "token"] (PDict d) = inr true).
  { simpl. unfold dict_has. now rewrite Hname, Hip, Htoken. }
  unfold py_subscript, subscript. rewrite Hall, Hname, Hip, Htoken.
  cbn [lift bind ret negb emit]. unfold try_except, bind, ret, emit.
  rewrite Hconn. cbn [lift raise]. rewrite Hexc.
  eexists. reflexivity.
Qed.

(** ** Start-up *)

Lemma exit_with_error_run {A} error st :
  exit_with_error (A:=A) error st = (complained error st, Raised exit_1).
Proof. reflexivity. Qed.

Lemma no_purifiers_absent cfg :
  dict_get "purifiers" cfg = None -> no_purifiers cfg = true.
Proof. intros Hp. unfold no_purifiers, dict_has. now rewrite Hp. Qed.

Lemma no_purifiers_not_list cfg v :
  dict_get "purifiers" cfg = Some v -> (forall p ps, v <> PList (p :: ps)) ->
  no_purifiers cfg = true.
Proof.
  intros Hp Hv. unfold no_purifiers, dict_has, dict_get_or. rewrite Hp. simpl.
  destruct v; try reflexivity. destruct l; [reflexivity|]. now destruct (Hv p l).
Qed.

(** What is left of [startup] once a dictionary has been loaded. *)
Lemma startup_loaded argv load cfg st :
  (2 <= length argv)%nat ->
  load (nth 1 argv "") = inr (PDict cfg) ->
  ((2 < length argv)%nat /\ py_int (nth 2 argv "") = None) \/
  no_purifiers cfg = true ->
  exists diagnostic,
    startup argv load st = (complained diagnostic st, Raised exit_1).
Proof.
  intros Hlen Hload Hbad. unfold startup.
  assert (Hl : (length argv <? 2)%nat = false) by (apply Nat.ltb_ge; lia).
  rewrite Hl. unfold bind at 1. unfold ret at 1.
  unfold bind at 1. unfold try_except. rewrite Hload. unfold lift at 1.
  unfold ret at 1. simpl py_get. rewrite !lift_inr.
  destruct (2 <? length argv)%nat eqn:Hl2.
  - destruct (py_int (nth 2 argv "")) as [n|] eqn:Hport.
    + destruct Hbad as [[_ Hn]|Hnp]; [discriminate|].
      unfold bind at 1. unfold ret at 1. rewrite Hnp.
      eexists. reflexivity.
    + eexists. reflexivity.
  - destruct Hbad as [[Hlt _]|Hnp]; [apply Nat.ltb_ge in Hl2; lia|].
    unfold bind at 1. unfold ret at 1. rewrite Hnp.
    eexists. reflexivity.
Qed.

(** A configuration that is not a dictionary stops the script at line 62. *)
Lemma startup_not_a_dict argv load config st :
  (2 <= length argv)%nat ->
  load (nth 1 argv "") = inr config ->
  (forall cfg, config <> PDict cfg) ->
  exists e, startup argv load st = (st, Raised e) /\
            exn_class e = AttributeError.
Proof.
  intros Hlen Hload Hnd. unfold startup.
  assert (Hl : (length argv <? 2)%nat = false) by (apply Nat.ltb_ge; lia).
  rewrite Hl. unfold bind at 1. unfold ret at 1.
  unfold bind at 1. unfold try_except. rewrite Hload. unfold lift at 1.
  unfold ret at 1.
  destruct config; try (eexists; split; reflexivity).
  now destruct (Hnd d).
Qed.

Lemma run_script_exit script st st' :
  script st = (st', Raised exit_1) -> run_script script st = (st', 1).
Proof. intros Hs. unfold run_script. now rewrite Hs. Qed.

(** C8: under each of the conditions that forbid a start, the process writes
    one diagnostic to standard error and ends with a status that is not
    zero, and that is all it does: no connection, no server, no cycle. *)
Theorem startup_fatal_exits
  (argv : list string) (load : string -> exn + pyval)
  (world : nat -> handle -> fetch_result) (n : nat) (st : state) :
  startup_fatal argv load ->
  exists diagnostic status,
    run_script (main argv load world n) st = (complained diagnostic st, status) /\
    status <> 0.
Proof.
  intros Hfatal.
  assert (Hexit : forall diagnostic,
            startup argv load st = (complained diagnostic st, Raised exit_1) ->
            exists diagnostic status,
              run_script (main argv load world n) st
              = (complained diagnostic st, status) /\ status <> 0).
  { intros diagnostic Hs. exists diagnostic, 1. split; [|discriminate].
    apply run_script_exit. unfold main. now rewrite (bind_raised _ _ _ _ _ Hs). }
  assert (Hl : (2 <= length argv)%nat -> (length argv <? 2)%nat = false)
    by (intros; apply Nat.ltb_ge; lia).
  destruct Hfatal as [Hlen|e Hlen Hload He|e Hlen Hload He|config Hlen Hload Hport
                       |cfg Hlen Hload Hp|cfg v Hlen Hload Hp Hv].
  - apply (Hexit "JSON config file must be passed as the first argument").
    unfold startup.
    assert (Hl1 : (length argv <? 2)%nat = true) by (apply Nat.ltb_lt; lia).
    now rewrite Hl1.
  - apply (Hexit ("Error reading config file: " +:+ exn_str e)).
    unfold startup. rewrite (Hl Hlen). unfold bind at 1. unfold ret at 1.
    unfold bind at 1. unfold try_except. rewrite Hload. unfold lift, raise.
    now rewrite He.
  - apply (Hexit ("Error reading config file: " +:+ exn_str e)).
    unfold startup. rewrite (Hl Hlen). unfold bind at 1. unfold ret at 1.
    unfold bind at 1. unfold try_except. rewrite Hload. unfold lift, raise.
    now rewrite He, orb_true_r.
  - destruct config;
      try (destruct (startup_not_a_dict argv load _ st ltac:(lia) Hload
                       ltac:(discriminate)) as (e & Hs & He);
           eexists _, 1; split; [|discriminate];
           unfold run_script, main; rewrite (bind_raised _ _ _ _ _ Hs), He;
           reflexivity).
    destruct (startup_loaded argv load d st ltac:(lia) Hload ltac:(now left))
      as [diagnostic Hs].
    now apply (Hexit diagnostic).
  - destruct (startup_loaded argv load cfg st Hlen Hload) as [diagnostic Hs].
    + right. now apply no_purifiers_absent.
    + now apply (Hexit diagnostic).
  - destruct (startup_loaded argv load cfg st Hlen Hload) as [diagnostic Hs].
    + right. now apply (no_purifiers_not_list cfg v).
    + now apply (Hexit diagnostic).
Qed.

End Properties.

(** * Further properties of the script *)

Section Further.
Context `{Collaborators}.

(** ** Traces *)

Lemma fetches_app evs evs' : fetches (evs ++ evs') = fetches evs ++ fetches evs'.
Proof.
  induction evs as [|ev evs IH]; [reflexivity|].
  destruct ev; simpl; now rewrite IH.
Qed.


Lemma emits_refl ok st : emits ok st st.
Proof. exists []. split; [now rewrite app_nil_r | constructor]. Qed.

Lemma emits_trans ok a b c : emits ok a b -> emits ok b c -> emits ok a c.
Proof.
  intros (e1 & H1 & F1) (e2 & H2 & F2). exists (e1 ++ e2). split.
  - now rewrite H2, H1, app_assoc.
  - apply List.Forall_app. now split.
Qed.

Lemma emits_emit ok ev : ok ev -> keeps (emits ok) (emit ev).
Proof. intros Hok st. exists [ev]. split; [reflexivity | now constructor]. Qed.

Lemma emits_gauge_set ok gauge name v : keeps (emits ok) (gauge_set gauge name v).
Proof.
  intros st. exists []. rewrite gauge_set_events.
  split; [now rewrite app_nil_r | constructor].
Qed.

Lemma emits_weaken (ok ok' : event -> Prop) st st' :
  (forall ev, ok ev -> ok' ev) -> emits ok st st' -> emits ok' st st'.
Proof.
  intros Hw (evs & He & Hf). exists evs. split; [exact He|].
  eapply List.Forall_impl; [exact Hw | exact Hf].
Qed.

(** ** What holds of every statement of the loop *)

(** A relation between states that holds across every step the loop is made
    of holds across the loop. The steps are: printing a line, fetching,
    sleeping, and setting one of the eleven gauges. *)
Section Loop.
Variable R : state -> state -> Prop.
Hypothesis R_refl : forall st, R st st.
Hypothesis R_trans : forall a b c, R a b -> R b c -> R a c.
Hypothesis R_print : forall line, keeps R (emit (Stdout line)).
Hypothesis R_fetch : forall h, keeps R (emit (Fetch h)).
Hypothesis R_sleep : forall interval, keeps R (emit (Sleep interval)).
Hypothesis R_set : forall row name v,
  In row gauge_rows -> keeps R (gauge_set (row_gauge row) name v).

Lemma loop_set_gauges name status : keeps R (set_gauges name status).
Proof.
  rewrite set_gauges_rows. apply (keeps_for_each _ R_refl R_trans).
  intros row Hin. apply (keeps_if_in _ R_refl). intros v _.
  now apply R_set.
Qed.

Lemma loop_process_properties name properties :
  keeps R (process_properties name properties).
Proof.
  unfold process_properties. apply (keeps_bind _ R_trans).
  - now apply keeps_lift.
  - intros status. apply loop_set_gauges.
Qed.

Lemma loop_poll_body fetch obj name : keeps R (poll_body fetch obj name).
Proof.
  unfold poll_body. apply (keeps_bind _ R_trans).
  - destruct obj; try (now apply keeps_raise). simpl.
    apply (keeps_bind _ R_trans); [apply R_fetch|]. intros _.
    destruct (fetch h); [now apply keeps_ret | now apply keeps_raise].
  - intros properties. apply loop_process_properties.
Qed.

Lemma loop_poll_handler name e : keeps R (poll_handler name e).
Proof.
  unfold poll_handler.
  destruct (isinstance e DeviceException); [apply R_print|].
  destruct (isinstance e OSError); [apply R_print | now apply keeps_raise].
Qed.

Lemma loop_poll_device fetch p : keeps R (poll_device fetch p).
Proof.
  unfold poll_device. apply (keeps_bind _ R_trans); [now apply keeps_lift|].
  intros obj.
  assert (Hlive : keeps R
    (purifier_name <- lift (py_subscript p "name") ;;
     try_except (poll_body fetch obj purifier_name) (poll_handler purifier_name))).
  { apply (keeps_bind _ R_trans); [now apply keeps_lift|]. intros name.
    apply (keeps_try _ R_trans); [apply loop_poll_body|].
    intros e. apply loop_poll_handler. }
  destruct obj; try exact Hlive. now apply keeps_ret.
Qed.

Lemma loop_sleep interval : keeps R (sleep interval).
Proof.
  unfold sleep. apply (keeps_bind _ R_trans); [apply R_sleep|]. intros _.
  destruct (time_sleep interval); [now apply keeps_raise | now apply keeps_ret].
Qed.

Lemma loop_poll_cycle fetch purifiers interval :
  keeps R (poll_cycle fetch purifiers interval).
Proof.
  unfold poll_cycle. apply (keeps_bind _ R_trans).
  - apply (keeps_for_each _ R_refl R_trans). intros p _. apply loop_poll_device.
  - intros _. apply loop_sleep.
Qed.

Lemma loop_poll_loop world purifiers interval n : forall c,
  keeps R (poll_loop world purifiers interval c n).
Proof.
  induction n as [|n IH]; intros c; simpl.
  - now apply keeps_ret.
  - apply (keeps_bind _ R_trans); [apply loop_poll_cycle|]. intros _. apply IH.
Qed.

End Loop.

(** ** What holds of every statement of the start *)

(** A relation between states that holds across printing, complaining,
    connecting and starting the server holds across the start. *)
Section Start.
Variable R : state -> state -> Prop.
Hypothesis R_refl : forall st, R st st.
Hypothesis R_trans : forall a b c, R a b -> R b c -> R a c.
Hypothesis R_emit : forall ev, startup_event ev -> keeps R (emit ev).

Ltac start_step :=
  first
    [ apply (keeps_ret _ R_refl)
    | apply (keeps_raise _ R_refl)
    | apply (keeps_lift _ R_refl)
    | apply R_emit; exact I
    | apply (keeps_bind _ R_trans)
    | apply (keeps_try _ R_trans)
    | match goal with
      | |- keeps _ (match ?x with _ => _ end) => destruct x
      | |- forall _, _ => intro
      end ].

Lemma start_exit_with_error {A} error : keeps R (exit_with_error (A:=A) error).
Proof. unfold exit_with_error. repeat start_step. Qed.

Lemma start_init_purifier i p : keeps R (init_purifier i p).
Proof. unfold init_purifier. repeat start_step. Qed.

Lemma start_init_purifiers purifiers : forall i,
  keeps R (init_purifiers i purifiers).
Proof.
  induction purifiers as [|p rest IH]; intros i; simpl.
  - apply (keeps_ret _ R_refl).
  - apply (keeps_bind _ R_trans); [apply start_init_purifier|]. intros p'.
    apply (keeps_bind _ R_trans); [apply IH|]. intros rest'.
    apply (keeps_ret _ R_refl).
Qed.

Lemma start_startup argv load : keeps R (startup argv load).
Proof.
  unfold startup.
  repeat first [ apply start_exit_with_error | apply start_init_purifiers
               | start_step ].
Qed.

End Start.

Lemma same_registry_emit ev : keeps same_registry (emit ev).
Proof. intros st. reflexivity. Qed.

Lemma no_eviction_refl st : no_eviction st st.
Proof. intros k Hk. exact Hk. Qed.

Lemma no_eviction_trans a b c :
  no_eviction a b -> no_eviction b c -> no_eviction a c.
Proof. intros Hab Hbc k Hk. apply Hbc, Hab, Hk. Qed.

Lemma no_eviction_emit ev : keeps no_eviction (emit ev).
Proof. intros st k Hk. exact Hk. Qed.

Lemma no_eviction_gauge_set gauge name v :
  keeps no_eviction (gauge_set gauge name v).
Proof.
  intros st k Hk.
  destruct (decide ((gauge, py_str name) = k)) as [<-|Hne].
  - destruct (py_float v) as [e|x] eqn:Hv.
    + rewrite (gauge_set_refused gauge name v e st Hv). simpl.
      rewrite with_child_same. now eexists.
    + rewrite (gauge_set_accepted gauge name v x st Hv). simpl.
      rewrite lookup_insert_eq. now eexists.
  - now rewrite gauge_set_other.
Qed.

Lemma same_registry_no_eviction st st' : same_registry st st' -> no_eviction st st'.
Proof. intros Hs k Hk. now rewrite Hs. Qed.

(** X1: The start does nothing to the gauges, and all it does to the outside is
    print, complain, connect and start the server: it never fetches and never
    sleeps, whatever the configuration is and however it ends. *)
Theorem startup_only_prepares
  (argv : list string) (load : string -> exn + pyval) (st : state) :
  registry (fst (startup argv load st)) = registry st /\
  emits startup_event st (fst (startup argv load st)).
Proof.
  split.
  - apply (start_startup same_registry same_registry_refl same_registry_trans).
    intros ev _. apply same_registry_emit.
  - apply (start_startup (emits startup_event) (emits_refl _) (emits_trans _)).
    intros ev Hev. now apply emits_emit.
Qed.

(** X2: All the loop does to the outside is print, fetch and sleep: whatever the
    devices answer, it never connects to a device again, never starts a
    server and never writes to standard error. *)
Theorem polling_never_reconnects
  (world : nat -> handle -> fetch_result) (purifiers : list pyval)
  (interval : pyval) (c n : nat) (st : state) :
  emits polling_event st (fst (poll_loop world purifiers interval c n st)).
Proof.
  apply (loop_poll_loop (emits polling_event) (emits_refl _) (emits_trans _)).
  - intros line. now apply emits_emit.
  - intros h. now apply emits_emit.
  - intros i. now apply emits_emit.
  - intros row name v _. apply emits_gauge_set.
Qed.

(** X3: No eviction: a point that has been published is still published after
    any run of the script, however the run ends. *)
Theorem published_points_are_never_removed
  (argv : list string) (load : string -> exn + pyval)
  (world : nat -> handle -> fetch_result) (n : nat) (st : state)
  (gauge label : string) :
  is_Some (registry st !! (gauge, label)) ->
  is_Some (registry (fst (main argv load world n st)) !! (gauge, label)).
Proof.
  assert (Hmain : keeps no_eviction (main argv load world n)).
  { unfold main. apply (keeps_bind _ no_eviction_trans).
    - apply (start_startup no_eviction no_eviction_refl no_eviction_trans).
      intros ev _. apply no_eviction_emit.
    - intros started.
      apply (loop_poll_loop no_eviction no_eviction_refl no_eviction_trans).
      + intros line. apply no_eviction_emit.
      + intros h. apply no_eviction_emit.
      + intros i. apply no_eviction_emit.
      + intros row name v _. apply no_eviction_gauge_set. }
  apply Hmain.
Qed.

(** X4: The loop writes the eleven gauges of lines 33 to 43 and no other: a
    point of any other metric name is after any run of the loop what it was
    before. *)
Theorem only_the_eleven_gauges_are_written
  (world : nat -> handle -> fetch_result) (purifiers : list pyval)
  (interval : pyval) (c n : nat) (st : state) (gauge label : string) :
  ~ In gauge gauge_names ->
  registry (fst (poll_loop world purifiers interval c n st)) !! (gauge, label)
  = registry st !! (gauge, label).
Proof.
  intros Hother.
  apply (loop_poll_loop (same_point gauge label) (same_point_refl _ _)
           (same_point_trans _ _)).
  - intros line st0. reflexivity.
  - intros h st0. reflexivity.
  - intros i st0. reflexivity.
  - intros row name v Hrow. apply gauge_set_other_gauge.
    intros Heq. apply Hother. rewrite <- Heq. unfold gauge_names.
    now apply List.in_map.
Qed.

(** ** The order of fetching *)

Lemma same_fetches_refl st : same_fetches st st.
Proof. reflexivity. Qed.

Lemma same_fetches_trans a b c :
  same_fetches a b -> same_fetches b c -> same_fetches a c.
Proof. unfold same_fetches. congruence. Qed.

Lemma same_fetches_gauge_set gauge name v :
  keeps same_fetches (gauge_set gauge name v).
Proof.
  intros st. unfold same_fetches. now rewrite gauge_set_events.
Qed.

Lemma process_properties_fetches name properties :
  keeps same_fetches (process_properties name properties).
Proof.
  apply (loop_process_properties same_fetches same_fetches_refl
           same_fetches_trans).
  intros row n v _. apply same_fetches_gauge_set.
Qed.

Lemma poll_handler_fetches name e : keeps same_fetches (poll_handler name e).
Proof.
  intros st. unfold poll_handler, same_fetches.
  destruct (isinstance e DeviceException);
    [simpl; rewrite fetches_app; simpl; now rewrite app_nil_r|].
  destruct (isinstance e OSError);
    [simpl; rewrite fetches_app; simpl; now rewrite app_nil_r | reflexivity].
Qed.

(** One turn of the [for] loop fetches from the device object of the entry,
    once, when it gets that far, and from nothing else. *)
Lemma poll_device_fetches fetch p st :
  exists fs,
    fetches (events (fst (poll_device fetch p st))) = fetches (events st) ++ fs /\
    fs `prefix_of` handles [p] /\
    (forall u, snd (poll_device fetch p st) = Done u -> fs = handles [p]).
Proof.
  assert (Hnone : forall (m : M unit) e,
            m st = (st, Raised e) ->
            exists fs,
              fetches (events (fst (m st))) = fetches (events st) ++ fs /\
              fs `prefix_of` handles [p] /\
              (forall u, snd (m st) = Done u -> fs = handles [p])).
  { intros m e Hm. exists []. rewrite Hm, app_nil_r. simpl.
    split; [reflexivity|]. split; [apply prefix_nil | discriminate]. }
  unfold poll_device.
  destruct p; simpl py_get; try (eapply Hnone; reflexivity).
  rewrite !lift_inr. unfold handles, handle_of.
  destruct (dict_get_or "object" PNone d) as [| | | | | | |h] eqn:Hobj;
    try (simpl py_subscript; unfold subscript;
         destruct (dict_get "name" d) as [name|];
         [ rewrite lift_inr | rewrite lift_inl ];
         exists []; rewrite app_nil_r; simpl;
         (split; [reflexivity|]); (split; [apply prefix_nil | discriminate])).
  - exists []. rewrite app_nil_r. simpl.
    split; [reflexivity|]. split; [apply prefix_nil | reflexivity].
  - simpl py_subscript. unfold subscript.
    destruct (dict_get "name" d) as [name|].
    + rewrite !lift_inr. exists [h].
      split; [|split; [reflexivity | reflexivity]].
      unfold try_except, poll_body, get_properties_for_mapping.
      unfold bind at 1. unfold bind at 1. unfold emit at 1.
      set (st1 := {| registry := registry st; events := events st ++ [Fetch h] |}).
      assert (Hst1 : fetches (events st1) = fetches (events st) ++ [h]).
      { unfold st1. simpl. now rewrite fetches_app. }
      destruct (fetch h) as [properties|e].
      * unfold ret at 1.
        pose proof (process_properties_fetches name properties st1) as Hp.
        unfold same_fetches in Hp.
        destruct (process_properties name properties st1) as [st2 [[]|e]];
          simpl in Hp |- *.
        -- now rewrite Hp.
        -- pose proof (poll_handler_fetches name e st2) as Hh.
           unfold same_fetches in Hh. now rewrite Hh, Hp.
      * unfold raise at 1.
        pose proof (poll_handler_fetches name e st1) as Hh.
        unfold same_fetches in Hh. now rewrite Hh.
    + rewrite !lift_inl. exists []. rewrite app_nil_r. simpl.
      split; [reflexivity|]. split; [apply prefix_nil | discriminate].
Qed.

Lemma handles_cons p ps : handles (p :: ps) = handles [p] ++ handles ps.
Proof. simpl. now destruct (handle_of p). Qed.

(** X5: Fairness: a cycle fetches from the device objects of the list in the
    order of the list, each at most once and none out of turn; a cycle that
    is not cut short by an exception fetches from every one of them. *)
Theorem cycle_fetches_in_configured_order
  (fetch : handle -> fetch_result) (purifiers : list pyval) (st : state) :
  exists fs,
    fetches (events (fst (for_each purifiers (poll_device fetch) st)))
    = fetches (events st) ++ fs /\
    fs `prefix_of` handles purifiers /\
    (forall u, snd (for_each purifiers (poll_device fetch) st) = Done u ->
               fs = handles purifiers).
Proof.
  revert st. induction purifiers as [|p rest IH]; intros st.
  - exists []. simpl. rewrite app_nil_r.
    split; [reflexivity|]. split; [apply prefix_nil | reflexivity].
  - destruct (poll_device_fetches fetch p st) as (fs1 & Hf1 & Hp1 & Hd1).
    rewrite (handles_cons p rest). remember (handles [p]) as hp eqn:Hhp.
    simpl for_each. unfold bind.
    destruct (poll_device fetch p st) as [st1 [[]|e]];
      simpl fst in *; simpl snd in *.
    + destruct (IH st1) as (fs2 & Hf2 & Hp2 & Hd2).
      rewrite (Hd1 tt eq_refl) in Hf1.
      exists (hp ++ fs2). split; [|split].
      * now rewrite Hf2, Hf1, app_assoc.
      * now apply prefix_app.
      * intros u Hu. now rewrite (Hd2 u Hu).
    + exists fs1. split; [exact Hf1|]. split.
      * now apply prefix_app_r.
      * discriminate.
Qed.

(** ** Sleeping *)






(** ** More on the status dictionary *)

Lemma status_of_readable properties :
  List.Forall readable properties -> exists status, status_of properties = inr status.
Proof.
  induction 1 as [|r rest Hr _ [status IH]]; [now exists []|].
  destruct r; try contradiction. simpl in Hr |- *.
  destruct Hr as [Hs|(did & value & Hdid & Hh & Hval)].
  - unfold survives in Hs. rewrite Hs. now exists status.
  - unfold subscript. rewrite Hdid, Hval, Hh, IH.
    destruct (eq_zero (dict_get_or "code" PNone d)); eauto.
Qed.

Lemma status_of_built properties : forall status,
  status_of properties = inr status -> List.Forall readable properties.
Proof.
  induction properties as [|r rest IH]; intros status Hst; [constructor|].
  destruct r; try discriminate. simpl in Hst.
  destruct (eq_zero (dict_get_or "code" PNone d)) eqn:Hz.
  - unfold subscript in Hst.
    destruct (dict_get "did" d) as [did|] eqn:Hdid; [|discriminate].
    destruct (dict_get "value" d) as [value|] eqn:Hval; [|discriminate].
    destruct (hashable did) eqn:Hh; [|discriminate].
    destruct (status_of rest) as [e|status'] eqn:Hrest; [discriminate|].
    constructor; [|now apply (IH status')].
    right. now exists did, value.
  - constructor; [now left | now apply (IH status)].
Qed.

(** X7: All or nothing at line 99: [status] is built exactly when every element
    of the answer is a dictionary that either fails the test of the status
    code or has a hashable identifier and a value; for any other answer the
    processing raises with the state, gauges included, untouched. *)
Theorem answer_is_processed_iff_readable (properties : list pyval) :
  (List.Forall readable properties <->
   exists status, status_of properties = inr status) /\
  (~ List.Forall readable properties ->
   forall name st, exists e,
     process_properties name properties st = (st, Raised e)).
Proof.
  split; [split|].
  - apply status_of_readable.
  - intros [status Hst]. now apply (status_of_built properties status).
  - intros Hnot name st.
    destruct (status_of properties) as [e|status] eqn:Hst.
    + exists e. now apply process_properties_raised.
    + destruct Hnot. now apply (status_of_built properties status).
Qed.

Lemma status_get_stored properties : forall status prop k,
  status_of properties = inr status ->
  In (PDict prop) properties -> survives prop = true ->
  dict_get "did" prop = Some (PStr k) ->
  is_Some (status_get k status).
Proof.
  induction properties as [|r rest IH]; intros status prop k Hst Hin Hs Hdid;
    [destruct Hin|].
  destruct r; try discriminate. simpl in Hst.
  assert (Hrest : forall status', status_of rest = inr status' ->
            In (PDict prop) rest -> is_Some (status_get k status')).
  { intros status' Hst' Hin'. now apply (IH status' prop k). }
  destruct (eq_zero (dict_get_or "code" PNone d)) eqn:Hz.
  - unfold subscript in Hst.
    destruct (dict_get "did" d) as [did|] eqn:Hd; [|discriminate].
    destruct (dict_get "value" d) as [value|] eqn:Hv; [|discriminate].
    destruct (hashable did); [|discriminate].
    destruct (status_of rest) as [e|status'] eqn:Hr; [discriminate|].
    injection Hst as <-. simpl.
    destruct Hin as [Heq|Hin].
    + injection Heq as ->. rewrite Hdid in Hd. injection Hd as <-. simpl.
      rewrite String.eqb_refl. now destruct (status_get k status').
    + destruct (Hrest status' eq_refl Hin) as [w Hw]. rewrite Hw. now eexists.
  - destruct Hin as [Heq|Hin]; [|now apply Hrest].
    injection Heq as ->. unfold survives in Hs. congruence.
Qed.

(** X8: A key is in [status] exactly when some reading of the answer passes the
    test of the status code and carries that key as its identifier. *)
Theorem key_in_status_iff_a_reading_survives
  (properties : list pyval) (status : status_dict) (k : string) :
  status_of properties = inr status ->
  (is_Some (status_get k status) <->
   exists prop, In (PDict prop) properties /\ survives prop = true /\
                dict_get "did" prop = Some (PStr k)).
Proof.
  intros Hst. split.
  - intros [v Hget].
    destruct (status_get_origin properties status k v Hst Hget)
      as (prop & Hin & Hs & Hdid & _).
    now exists prop.
  - intros (prop & Hin & Hs & Hdid).
    now apply (status_get_stored properties status prop k).
Qed.

(** ** Gauges that an answer does not mention *)

Lemma rows_share_no_gauge (rows : list (string * string * (pyval -> pyval))) :
  NoDup (map row_gauge rows) ->
  forall r r', In r rows -> In r' rows -> row_gauge r = row_gauge r' -> r = r'.
Proof.
  induction rows as [|a rows IH]; intros Hnd r r' Hr Hr' Heq; [destruct Hr|].
  rewrite fmap_cons in Hnd. apply NoDup_cons in Hnd as [Hfresh Hnd].
  assert (Hin : forall x, In x rows -> row_gauge x <> row_gauge a).
  { intros x Hx Hxa. apply Hfresh. rewrite <- Hxa.
    apply list_elem_of_fmap. exists x. split; [reflexivity|].
    now apply list_elem_of_In. }
  destruct Hr as [<-|Hr], Hr' as [<-|Hr'].
  - reflexivity.
  - now destruct (Hin r' Hr').
  - now destruct (Hin r Hr).
  - now apply IH.
Qed.

Lemma set_gauges_absent_key name status k gauge f :
  In (k, gauge, f) gauge_rows ->
  status_get k status = None ->
  keeps (same_point gauge (py_str name)) (set_gauges name status).
Proof.
  intros Hrow Hget. rewrite set_gauges_rows.
  apply (keeps_for_each _ (same_point_refl _ _) (same_point_trans _ _)).
  intros row Hin.
  destruct (decide (row_gauge row = gauge)) as [Heq|Hne].
  - assert (Hsame : row = (k, gauge, f)).
    { now apply (rows_share_no_gauge gauge_rows gauge_rows_NoDup). }
    subst row. unfold set_row, if_in. simpl. rewrite Hget.
    apply keeps_ret, same_point_refl.
  - apply (keeps_if_in _ (same_point_refl _ _)). intros v _.
    now apply gauge_set_other_gauge.
Qed.

(** X9: A partial answer updates only what it mentions: when no reading that
    passes the test of the status code carries a key, the gauge of that key
    keeps for the device the value it had before the fetch. *)
Theorem unmentioned_gauge_keeps_its_value
  (fetch : handle -> fetch_result) (d : dict) (h : handle) (name : pyval)
  (properties : list pyval) (k gauge : string) (f : pyval -> pyval)
  (st : state) :
  dict_get "object" d = Some (PDevice h) ->
  dict_get "name" d = Some name ->
  fetch h = Returned properties ->
  In (k, gauge, f) gauge_rows ->
  (forall prop, In (PDict prop) properties -> survives prop = true ->
                dict_get "did" prop <> Some (PStr k)) ->
  registry (fst (poll_device fetch (PDict d) st)) !! (gauge, py_str name)
  = registry st !! (gauge, py_str name).
Proof.
  intros Hobj Hname Hfetch Hrow Hnone.
  rewrite (poll_device_returned fetch d h name properties st Hobj Hname Hfetch).
  rewrite try_except_registry.
  destruct (status_of properties) as [e|status] eqn:Hst.
  - now rewrite (process_properties_raised name properties e _ Hst).
  - rewrite (process_properties_status name properties status _ Hst).
    assert (Hget : status_get k status = None).
    { now apply (status_get_absent properties status k). }
    exact (set_gauges_absent_key name status k gauge f Hrow Hget
             {| registry := registry st; events := events st ++ [Fetch h] |}).
Qed.

(** ** Processing an answer again *)

Lemma rows_settled name status rows : forall st,
  (forall row v, In row rows -> status_get (row_key row) status = Some v ->
     exists x, py_float (snd row v) = inr x /\
               registry st !! (row_gauge row, py_str name) = Some x) ->
  for_each rows (set_row name status) st = (st, Done tt).
Proof.
  induction rows as [|r rows IH]; intros st Hall; [reflexivity|].
  simpl. unfold bind.
  assert (Hr : set_row name status r st = (st, Done tt)).
  { unfold set_row, if_in. fold (row_key r).
    destruct (status_get (row_key r) status) as [v|] eqn:Hget; [|reflexivity].
    destruct (Hall r v (or_introl eq_refl) Hget) as (x & Hx & Hreg).
    rewrite (gauge_set_accepted _ name _ x st Hx).
    fold (row_gauge r). rewrite (insert_id _ _ _ Hreg). now destruct st. }
  rewrite Hr. apply IH. intros row v Hin Hget.
  apply (Hall row v); [now right | exact Hget].
Qed.

(** X10: Setting the gauges is idempotent: an answer that has been processed to
    the end can be processed again without any change of the state. *)
Theorem processing_again_changes_nothing
  (name : pyval) (properties : list pyval) (st st1 : state) :
  process_properties name properties st = (st1, Done tt) ->
  process_properties name properties st1 = (st1, Done tt).
Proof.
  intros Hrun.
  destruct (status_of properties) as [e|status] eqn:Hst.
  - now rewrite (process_properties_raised name properties e _ Hst) in Hrun.
  - rewrite (process_properties_status name properties status st Hst) in Hrun.
    rewrite (process_properties_status name properties status st1 Hst).
    rewrite set_gauges_rows in Hrun |- *.
    apply rows_settled. intros row v Hin Hget.
    exact (rows_done name status gauge_rows st st1 gauge_rows_NoDup Hrun
             row v Hin Hget).
Qed.

(** ** Statements that finish *)

Lemma bind_Done {A B} (m : M A) (k : A -> M B) st st' b :
  bind m k st = (st', Done b) ->
  exists a st1, m st = (st1, Done a) /\ k a st1 = (st', Done b).
Proof.
  unfold bind. destruct (m st) as [st1 [a|e]]; [|discriminate].
  intros Hk. now exists a, st1.
Qed.

Lemma lift_Done {A} (r : exn + A) st st' a :
  lift r st = (st', Done a) -> r = inr a /\ st' = st.
Proof. destruct r; [discriminate|]. intros [= -> ->]. now split. Qed.

Lemma emit_Done ev st st' u :
  emit ev st = (st', Done u) ->
  st' = {| registry := registry st; events := events st ++ [ev] |}.
Proof. now intros [= <-]. Qed.

Lemma try_Done {A} (body : M A) (handler : exn -> M A) st st' a :
  try_except body handler st = (st', Done a) ->
  body st = (st', Done a) \/
  exists e st1, body st = (st1, Raised e) /\ handler e st1 = (st', Done a).
Proof.
  unfold try_except. destruct (body st) as [st1 [a'|e]].
  - intros [= -> ->]. now left.
  - intros Hh. right. now exists e, st1.
Qed.

(** ** Initialisation *)


Lemma all_in_complete d name ip token :
  dict_get "name" d = Some name -> dict_get "ip" d = Some ip ->
  dict_get "token" d = Some token ->
  all_in ["name"; "ip"; "token"] (PDict d) = inr true.
Proof. intros Hn Hi Ht. simpl. unfold dict_has. now rewrite Hn, Hi, Ht. Qed.

Lemma all_in_incomplete d k :
  In k ["name"; "ip"; "token"] -> dict_get k d = None ->
  all_in ["name"; "ip"; "token"] (PDict d) = inr false.
Proof.
  intros Hk Hnone. simpl. unfold dict_has.
  destruct Hk as [<-|[<-|[<-|[]]]]; rewrite ?Hnone;
    repeat match goal with
           | |- context [match dict_get ?x d with _ => _ end] =>
               destruct (dict_get x d)
           end; reflexivity.
Qed.


Lemma init_purifiers_app j before : forall st0 st before' rest,
  init_purifiers j before st0 = (st, Done before') ->
  init_purifiers j (before ++ rest) st0
  = (rest' <- init_purifiers (j + length before) rest ;;
     ret (before' ++ rest')) st.
Proof.
  revert j. induction before as [|p before IH]; intros j st0 st before' rest Hrun.
  - injection Hrun as <- <-. simpl. rewrite Nat.add_0_r. unfold bind.
    destruct (init_purifiers j rest st0) as [st1 [rest'|e]]; reflexivity.
  - simpl in Hrun. apply bind_Done in Hrun as (p' & st1 & Hp & Hrun).
    apply bind_Done in Hrun as (b' & st2 & Hb & Hrun).
    injection Hrun as <- <-.
    simpl. rewrite (bind_done _ _ _ _ _ Hp).
    unfold bind at 1. rewrite (IH (S j) st1 st2 b' rest Hb).
    replace (S j + length before)%nat with (j + S (length before))%nat by lia.
    unfold bind.
    destruct (init_purifiers (j + S (length before)) rest st2) as [st3 [rest'|e]];
      reflexivity.
Qed.

(** X12: Only [DeviceException] is forgiven at initialisation: when the
    constructor raises anything else for an entry with its three keys, the
    initialisation ends there with that exception, after the entries before
    it, and no later entry is looked at. *)
Theorem other_connection_failure_ends_initialisation
  (j : nat) (before rest : list pyval) (d : dict) (name ip token : pyval)
  (e : exn) (st0 st : state) (before' : list pyval) :
  init_purifiers j before st0 = (st, Done before') ->
  dict_get "name" d = Some name ->
  dict_get "ip" d = Some ip ->
  dict_get "token" d = Some token ->
  MiotDevice (j + length before) ip token = inl e ->
  isinstance e DeviceException = false ->
  init_purifiers j (before ++ PDict d :: rest) st0
  = ({| registry := registry st;
        events := (events st ++
                   [Stdout ("Initializing purifier '" +:+ py_str name +:+ "' at "
                            +:+ py_str ip +:+ "...")]) ++ [Connect ip token] |},
     Raised e).
Proof.
  intros Hbefore Hname Hip Htoken Hconn Hexc.
  rewrite (init_purifiers_app j before st0 st before' _ Hbefore).
  simpl init_purifiers. unfold bind at 1. unfold bind at 1.
  assert (Hp : init_purifier (j + length before) (PDict d) st
    = ({| registry := registry st;
          events := (events st ++
                     [Stdout ("Initializing purifier '" +:+ py_str name +:+ "' at "
                              +:+ py_str ip +:+ "...")]) ++ [Connect ip token] |},
       Raised e)).
  { unfold init_purifier.
    rewrite (all_in_complete d name ip token Hname Hip Htoken).
    unfold py_subscript, subscript. rewrite Hname, Hip, Htoken.
    cbn [lift bind ret negb emit]. unfold try_except, bind, ret, emit.
    rewrite Hconn. cbn [lift raise]. now rewrite Hexc. }
  now rewrite Hp.
Qed.

(** X13: An entry that lacks one of ['name'], ['ip'] and ['token'] is passed over
    with the warning of line 78: no connection is tried and the entry stays
    as it is. *)
Theorem incomplete_entry_is_not_connected
  (i : nat) (d : dict) (k : string) (st : state) :
  In k ["name"; "ip"; "token"] ->
  dict_get k d = None ->
  init_purifier i (PDict d) st
  = (logged
       "Warning: Skipping a purifier entry due to missing 'name', 'ip', or 'token'."
       st, Done (PDict d)).
Proof.
  intros Hk Hnone. unfold init_purifier.
  now rewrite (all_in_incomplete d k Hk Hnone).
Qed.

Lemma init_purifier_related i p st st1 p' :
  init_purifier i p st = (st1, Done p') -> init_related p p'.
Proof.
  unfold init_purifier. intros Hrun.
  apply bind_Done in Hrun as (complete & s1 & _ & Hrun).
  destruct complete; simpl negb in Hrun; cbv iota in Hrun.
  - apply bind_Done in Hrun as (name & s2 & _ & Hrun).
    apply bind_Done in Hrun as (ip & s3 & _ & Hrun).
    apply bind_Done in Hrun as (u & s4 & _ & Hrun).
    apply try_Done in Hrun as [Hrun|(e & s5 & _ & Hrun)].
    + apply bind_Done in Hrun as (ip' & s5 & _ & Hrun).
      apply bind_Done in Hrun as (token & s6 & _ & Hrun).
      apply bind_Done in Hrun as (u' & s7 & _ & Hrun).
      apply bind_Done in Hrun as (h & s8 & _ & Hrun).
      destruct p; try discriminate. injection Hrun as _ <-.
      right. exists d. split; [reflexivity|]. right. now exists h.
    + destruct (isinstance e DeviceException); [|discriminate].
      apply bind_Done in Hrun as (name' & s6 & _ & Hrun).
      apply bind_Done in Hrun as (u' & s7 & _ & Hrun).
      destruct p; try discriminate. injection Hrun as _ <-.
      right. exists d. split; [reflexivity|]. now left.
  - apply bind_Done in Hrun as (u & s2 & _ & Hrun).
    injection Hrun as _ <-. now left.
Qed.

Lemma init_purifiers_related purifiers : forall i st st' purifiers',
  init_purifiers i purifiers st = (st', Done purifiers') ->
  List.Forall2 init_related purifiers purifiers'.
Proof.
  induction purifiers as [|p rest IH]; intros i st st' purifiers' Hrun.
  - injection Hrun as _ <-. constructor.
  - simpl in Hrun. apply bind_Done in Hrun as (p' & st1 & Hp & Hrun).
    apply bind_Done in Hrun as (rest' & st2 & Hrest & Hrun).
    injection Hrun as _ <-. constructor.
    + now apply (init_purifier_related i p st st1).
    + now apply (IH (S i) st1 st2).
Qed.

(** X14: The initialisation keeps the list as configured: as many entries, in the
    same order, each one either untouched or changed in its ['object'] key
    alone, which then holds [None] or a device object. *)
Theorem initialisation_keeps_the_list
  (purifiers : list pyval) : forall (i : nat) (st st' : state)
  (purifiers' : list pyval),
  init_purifiers i purifiers st = (st', Done purifiers') ->
  List.Forall2 init_related purifiers purifiers' /\
  length purifiers' = length purifiers.
Proof.
  intros i st st' purifiers' Hrun.
  pose proof (init_purifiers_related purifiers i st st' purifiers' Hrun) as Hrel.
  split; [exact Hrel|]. symmetry. exact (List.Forall2_length Hrel).
Qed.

(** ** A start that succeeds *)

Lemma no_purifiers_false cfg :
  no_purifiers cfg = false ->
  exists p entries, dict_get "purifiers" cfg = Some (PList (p :: entries)).
Proof.
  unfold no_purifiers, dict_has, dict_get_or.
  destruct (dict_get "purifiers" cfg) as [v|]; [|discriminate]. simpl.
  destruct v; try discriminate. destruct l as [|p entries]; [discriminate|].
  intros _. now exists p, entries.
Qed.

(** X15: What a start that succeeds has established: the configuration is a
    dictionary whose ['purifiers'] is a list that is not empty; the entries
    polled are those of the list, in order, changed at most in their
    ['object']; the polling interval is the configured one, 60 when there is
    none; the port is the third command-line argument when there is one
    (then an integer) and else the configured one, 8000 when there is none;
    and the last thing done is to start the server on that port. *)
Theorem started_script_is_configured
  (argv : list string) (load : string -> exn + pyval) (st st' : state)
  (purifiers : list pyval) (interval : pyval) :
  startup argv load st = (st', Done (purifiers, interval)) ->
  exists cfg entries port evs,
    (2 <= length argv)%nat /\
    load (nth 1 argv "") = inr (PDict cfg) /\
    dict_get "purifiers" cfg = Some (PList entries) /\
    entries <> [] /\
    List.Forall2 init_related entries purifiers /\
    interval = dict_get_or "polling_interval_seconds" (PInt 60) cfg /\
    ((length argv <= 2)%nat ->
     port = dict_get_or "prometheus_port" (PInt 8000) cfg) /\
    ((2 < length argv)%nat ->
     exists n, py_int (nth 2 argv "") = Some n /\ port = PInt n) /\
    start_http_server port = None /\
    events st' = (events st ++ evs) ++ [StartHttpServer port] /\
    List.Forall startup_event evs.
Proof.
  unfold startup. intros Hrun.
  apply bind_Done in Hrun as (u0 & s0 & Hlen & Hrun).
  destruct (length argv <? 2)%nat eqn:Hl;
    [rewrite exit_with_error_run in Hlen; discriminate|].
  injection Hlen as <- _. apply Nat.ltb_ge in Hl.
  apply bind_Done in Hrun as (config & s1 & Hload & Hrun).
  apply try_Done in Hload as [Hload|(e & s2 & _ & Hh)].
  2:{ destruct (isinstance e FileNotFoundError || isinstance e JSONDecodeError);
        [rewrite exit_with_error_run in Hh|]; discriminate. }
  apply lift_Done in Hload as [Hload ->].
  apply bind_Done in Hrun as (port0 & s2 & Hport0 & Hrun).
  apply lift_Done in Hport0 as [Hport0 ->].
  destruct config; try discriminate. simpl in Hport0. injection Hport0 as <-.
  apply bind_Done in Hrun as (interval0 & s3 & Hint & Hrun).
  apply lift_Done in Hint as [Hint ->]. simpl in Hint. injection Hint as <-.
  apply bind_Done in Hrun as (port & s4 & Hport & Hrun).
  apply bind_Done in Hrun as (u1 & s5 & Hnp & Hrun).
  destruct (no_purifiers d) eqn:Hno;
    [rewrite exit_with_error_run in Hnp; discriminate|].
  injection Hnp as <- _.
  destruct (no_purifiers_false d Hno) as (p0 & entries & Hpur).
  unfold dict_get_or in Hrun at 1. rewrite Hpur in Hrun.
  apply bind_Done in Hrun as (ps & s6 & Hinit & Hrun).
  apply bind_Done in Hrun as (u2 & s7 & Hp1 & Hrun).
  apply bind_Done in Hrun as (u3 & s8 & Hp2 & Hrun).
  apply bind_Done in Hrun as (u4 & s9 & Hp3 & Hrun).
  apply emit_Done in Hp1, Hp2, Hp3.
  destruct (start_http_server port) eqn:Hserver; [discriminate|].
  injection Hrun as <- <- <-.
  pose proof (start_init_purifiers (emits startup_event) (emits_refl _)
                (emits_trans _) (fun ev Hev => emits_emit _ ev Hev)
                (p0 :: entries) 0%nat s4) as (evs & Hevs & Hok).
  rewrite Hinit in Hevs. simpl in Hevs.
  assert (Hs4 : events s4 = events st /\
                ((length argv <= 2)%nat ->
                 port = dict_get_or "prometheus_port" (PInt 8000) d) /\
                ((2 < length argv)%nat ->
                 exists n, py_int (nth 2 argv "") = Some n /\ port = PInt n)).
  { destruct (2 <? length argv)%nat eqn:Hl2.
    - apply Nat.ltb_lt in Hl2.
      destruct (py_int (nth 2 argv "")) as [n|];
        [|rewrite exit_with_error_run in Hport; discriminate].
      injection Hport as <- <-. split; [reflexivity|]. split; [lia|].
      intros _. now exists n.
    - apply Nat.ltb_ge in Hl2. injection Hport as <- <-.
      split; [reflexivity|]. split; [reflexivity | lia]. }
  destruct Hs4 as (Hev4 & Hdefault & Hgiven).
  exists d, (p0 :: entries), port,
    (evs ++ [Stdout ("Starting Prometheus exporter on port " +:+ py_str port);
             Stdout ("Polling devices every "
                     +:+ py_str (dict_get_or "polling_interval_seconds" (PInt 60) d)
                     +:+ " seconds")]).
  split; [exact Hl|]. split; [exact Hload|]. split; [exact Hpur|].
  split; [discriminate|].
  split; [now apply (init_purifiers_related _ _ _ _ _ Hinit)|].
  split; [reflexivity|]. split; [exact Hdefault|]. split; [exact Hgiven|].
  split; [exact Hserver|]. split.
  - rewrite Hp3, Hp2, Hp1. simpl. rewrite Hevs, Hev4.
    now rewrite <- !app_assoc.
  - apply List.Forall_app. split; [exact Hok|].
    repeat constructor.
Qed.

(** ** Entries that are no dictionaries *)

(** X16: An entry of the list that is not a dictionary and gets through the
    initialisation gets through it unchanged, and then no cycle over a list
    that holds it comes to its sleep: the cycle ends with an exception that
    is neither a [DeviceException] nor an [OSError]. *)
Theorem entry_that_is_no_dictionary_stops_the_loop
  (i : nat) (p p' : pyval) (st st1 : state) :
  (forall d, p <> PDict d) ->
  init_purifier i p st = (st1, Done p') ->
  p' = p /\
  forall fetch purifiers interval st2,
    In p purifiers ->
    exists st3 e,
      poll_cycle fetch purifiers interval st2 = (st3, Raised e) /\
      isinstance e DeviceException = false /\ isinstance e OSError = false.
Proof.
  intros Hnd Hinit. split.
  - destruct (init_purifier_related i p st st1 p' Hinit) as [Heq|(d & Hd & _)];
      [exact Heq | now destruct (Hnd d)].
  - intros fetch purifiers interval st2 Hin.
    assert (Hp : forall s, exists e, poll_device fetch p s = (s, Raised e)).
    { intros s. unfold poll_device.
      destruct p; try (eexists; reflexivity). now destruct (Hnd d). }
    assert (Hloop : forall s, exists s' e,
              for_each purifiers (poll_device fetch) s = (s', Raised e)).
    { clear st2. induction purifiers as [|q rest IH]; [destruct Hin|].
      intros s. simpl. unfold bind.
      destruct (poll_device fetch q s) as [s1 [[]|e]] eqn:Hq.
      - destruct Hin as [->|Hin].
        + destruct (Hp s) as [e He]. congruence.
        + apply (IH Hin).
      - now exists s1, e. }
    destruct (Hloop st2) as (s' & e & Hrun).
    exists s', e. split.
    + unfold poll_cycle. now rewrite (bind_raised _ _ _ _ _ Hrun).
    + now apply (for_each_poll_escape fetch purifiers st2 s').
Qed.

(** ** The two tables *)

(** X17: The keys that lines 102 to 112 look up are the keys of [MIOT_MAPPING],
    each looked up by one line, and the eleven lines set eleven gauges with
    different metric names: every property asked of the device has its own
    gauge, and no line waits for a property that is not asked for. *)
Theorem every_mapped_property_has_its_gauge :
  (forall k, In k mapping_keys <-> In k (map row_key gauge_rows)) /\
  NoDup mapping_keys /\ NoDup (map row_key gauge_rows) /\ NoDup gauge_names.
Proof.
  split; [|split; [|split]]; try (apply (bool_decide_unpack _); vm_compute; exact I).
  intros k. unfold mapping_keys, MIOT_MAPPING, gauge_rows. simpl. tauto.
Qed.

End Further.


(** * The value published, and the devices without a handle *)

Section Published.
Context `{Collaborators}.

(** When [float()] accepts whatever the rows would set, the rows run to the
    end. *)
Lemma accepted_rows_run name status rows : forall st,
  accepted status rows ->
  exists st', for_each rows (set_row name status) st = (st', Done tt).
Proof.
  induction rows as [|r rows IH]; intros st Hacc; [now exists st|].
  simpl. unfold bind.
  assert (Hr : exists st1, set_row name status r st = (st1, Done tt)).
  { unfold set_row, if_in. fold (row_key r).
    destruct (status_get (row_key r) status) as [w|] eqn:Hget; [|now exists st].
    destruct (Hacc r w (or_introl eq_refl) Hget) as [x Hx].
    eexists. exact (gauge_set_accepted _ name _ x st Hx). }
  destruct Hr as [st1 Hr]. rewrite Hr. apply IH.
  intros row w Hin Hget. now apply (Hacc row w (or_intror Hin) Hget).
Qed.

Lemma accepted_app status rows rows' :
  accepted status (rows ++ rows') -> accepted status rows.
Proof.
  intros Hacc row w Hin Hget. apply (Hacc row w); [|exact Hget].
  apply in_or_app. now left.
Qed.

Lemma split_rows_other_gauges earlier row later :
  gauge_rows = earlier ++ row :: later ->
  (forall r, In r earlier -> row_gauge r <> row_gauge row) /\
  (forall r, In r later -> row_gauge r <> row_gauge row).
Proof.
  intros Hsplit. pose proof gauge_rows_NoDup as Hnd. rewrite Hsplit in Hnd.
  split; intros r Hr Heq.
  - assert (Hsame : r = row).
    { apply (rows_share_no_gauge _ Hnd); [| |exact Heq].
      - apply in_or_app. now left.
      - apply in_or_app. right. now left. }
    subst r. rewrite fmap_app in Hnd. apply NoDup_app in Hnd as (_ & Hdis & _).
    apply (Hdis (row_gauge row)).
    + apply list_elem_of_fmap. exists row. split; [reflexivity|].
      now apply list_elem_of_In.
    + rewrite fmap_cons. apply list_elem_of_here.
  - rewrite fmap_app, fmap_cons in Hnd.
    apply NoDup_app in Hnd as (_ & _ & Hnd).
    apply NoDup_cons in Hnd as [Hfresh _]. apply Hfresh. rewrite <- Heq.
    apply list_elem_of_fmap. exists r. split; [reflexivity|].
    now apply list_elem_of_In.
Qed.

(** The row of a key that is in [status], once the rows before it have run:
    when [float()] accepts the value the gauge holds it afterwards, whatever
    the later rows do; when [float()] refuses it the rows stop there with
    that exception, and the gauge holds what it held before, 0.0 when it
    held nothing. *)
Lemma row_publishes name status earlier k gauge f later v st :
  gauge_rows = earlier ++ (k, gauge, f) :: later ->
  accepted status earlier ->
  status_get k status = Some v ->
  (forall x, py_float (f v) = inr x ->
     registry (fst (set_gauges name status st)) !! (gauge, py_str name)
     = Some x) /\
  (forall e, py_float (f v) = inl e ->
     snd (set_gauges name status st) = Raised e /\
     registry (fst (set_gauges name status st)) !! (gauge, py_str name)
     = Some (default float_zero (registry st !! (gauge, py_str name)))).
Proof.
  intros Hsplit Hacc Hget.
  destruct (split_rows_other_gauges earlier (k, gauge, f) later Hsplit)
    as [Hearlier Hlater].
  rewrite set_gauges_rows, Hsplit, for_each_app.
  destruct (accepted_rows_run name status earlier st Hacc) as [st1 Hrun1].
  pose proof (rows_keep_point gauge (py_str name) name status earlier Hearlier st)
    as Hkeep1.
  rewrite Hrun1 in Hkeep1. unfold same_point in Hkeep1. simpl in Hkeep1.
  rewrite (bind_done _ _ _ _ _ Hrun1). simpl for_each.
  pose proof (rows_keep_point gauge (py_str name) name status later Hlater)
    as Hkeep2.
  unfold bind, set_row, if_in. simpl fst. simpl snd. rewrite Hget.
  split.
  - intros x Hx. rewrite (gauge_set_accepted gauge name (f v) x st1 Hx).
    rewrite Hkeep2. simpl. apply lookup_insert_eq.
  - intros e He. rewrite (gauge_set_refused gauge name (f v) e st1 He). simpl.
    split; [reflexivity|]. now rewrite with_child_same, Hkeep1.
Qed.

(** C10: when several readings that pass line 99 carry the same identifier,
    [status] holds the value of the last of them, and that value is the one
    published: when [float()] accepts what the lines before the one of this
    identifier set, the gauge of the identifier holds [float] of that value
    (of its truth value, 1 or 0, for the power gauge) after the answer has
    been processed, whatever the later lines do; when [float()] refuses that
    value, processing raises there and the gauge holds what it held before,
    0.0 when it held nothing. When [float()] accepts what all eleven lines
    set, processing runs to the end. *)
Theorem last_surviving_reading_wins
  (name : pyval) (before after : list pyval) (prop : dict) (k : string)
  (v : pyval) (status : status_dict) :
  status_of (before ++ PDict prop :: after) = inr status ->
  survives prop = true ->
  dict_get "did" prop = Some (PStr k) ->
  dict_get "value" prop = Some v ->
  (forall later, In (PDict later) after -> survives later = true ->
                 dict_get "did" later <> Some (PStr k)) ->
  status_get k status = Some v /\
  (forall gauge f earlier later st,
     gauge_rows = earlier ++ (k, gauge, f) :: later ->
     accepted status earlier ->
     (forall x, py_float (f v) = inr x ->
        registry (fst (process_properties name
                         (before ++ PDict prop :: after) st))
          !! (gauge, py_str name) = Some x) /\
     (forall e, py_float (f v) = inl e ->
        snd (process_properties name (before ++ PDict prop :: after) st)
        = Raised e /\
        registry (fst (process_properties name
                         (before ++ PDict prop :: after) st))
          !! (gauge, py_str name)
        = Some (default float_zero (registry st !! (gauge, py_str name))))) /\
  (forall st,
     accepted status gauge_rows ->
     exists st',
       process_properties name (before ++ PDict prop :: after) st
       = (st', Done tt)) /\
  (forall gauge f st st',
     In (k, gauge, f) gauge_rows ->
     process_properties name (before ++ PDict prop :: after) st = (st', Done tt) ->
     exists x, py_float (f v) = inr x /\
               registry st' !! (gauge, py_str name) = Some x).
Proof.
  intros Hst Hs Hdid Hval Hlater.
  assert (Hget : status_get k status = Some v)
    by (eapply status_get_last; eauto).
  split; [exact Hget|]. split; [|split].
  - intros gauge f earlier later st Hsplit Hacc.
    rewrite (process_properties_status _ _ _ st Hst).
    exact (row_publishes name status earlier k gauge f later v st Hsplit Hacc
             Hget).
  - intros st Hacc. rewrite (process_properties_status _ _ _ st Hst).
    rewrite set_gauges_rows. now apply accepted_rows_run.
  - intros gauge f st st' Hrow Hrun.
    rewrite (process_properties_status _ _ _ _ Hst), set_gauges_rows in Hrun.
    exact (rows_done name status gauge_rows st st' gauge_rows_NoDup Hrun
             (k, gauge, f) v Hrow Hget).
Qed.

(** A turn of the loop for a device entry whose answer it gets over runs to
    its end. *)
Lemma poll_device_survives fetch p h st :
  device_entry p h -> survivable (fetch h) ->
  exists st', poll_device fetch p st = (st', Done tt).
Proof.
  intros (d & name & -> & Hobj & Hname) Hsurv.
  destruct (fetch h) as [properties|e] eqn:Hfetch.
  - destruct Hsurv as (status & Hst & Hacc).
    rewrite (poll_device_returned fetch d h name properties st Hobj Hname Hfetch).
    unfold try_except.
    rewrite (process_properties_status name properties status _ Hst).
    rewrite set_gauges_rows.
    destruct (accepted_rows_run name status gauge_rows
                {| registry := registry st; events := events st ++ [Fetch h] |}
                Hacc) as [st' Hrun].
    rewrite Hrun. now exists st'.
  - rewrite (poll_device_failed fetch d h name e st Hobj Hname Hfetch).
    destruct (poll_handler_caught name e
                {| registry := registry st; events := events st ++ [Fetch h] |}
                Hsurv) as (pre & post & Hh).
    rewrite Hh. eexists. reflexivity.
Qed.

Lemma handles_live purifiers : handles (List.filter live purifiers) = handles purifiers.
Proof.
  induction purifiers as [|p rest IH]; [reflexivity|].
  simpl. unfold live at 1. destruct (handle_absent p) eqn:Hp; simpl.
  - assert (Hnone : handle_of p = None).
    { destruct p; try reflexivity. unfold handle_absent in Hp. simpl.
      now destruct (dict_get_or "object" PNone d). }
    now rewrite Hnone.
  - now rewrite IH.
Qed.

(** A pass over a list whose entries are without a handle or device entries
    with an answer the loop gets over comes to its end, having fetched from
    every device of the list once, in the order of the list. *)
Lemma pass_over_devices fetch purifiers : forall st,
  (forall q, In q purifiers ->
     handle_absent q = true \/
     exists h, device_entry q h /\ survivable (fetch h)) ->
  exists st',
    for_each purifiers (poll_device fetch) st = (st', Done tt) /\
    fetches (events st') = fetches (events st) ++ handles purifiers.
Proof.
  induction purifiers as [|q rest IH]; intros st Hall.
  - exists st. simpl. now rewrite app_nil_r.
  - assert (Hq : exists st1, poll_device fetch q st = (st1, Done tt)).
    { destruct (Hall q (or_introl eq_refl)) as [Habs|(h & Hdev & Hsurv)].
      - exists st. now apply poll_device_absent.
      - now apply (poll_device_survives fetch q h). }
    destruct Hq as [st1 Hq].
    destruct (poll_device_fetches fetch q st) as (fs & Hfs & _ & Hdone).
    rewrite Hq in Hfs, Hdone. simpl in Hfs, Hdone.
    rewrite (Hdone tt eq_refl) in Hfs.
    destruct (IH st1) as (st' & Hrun & Hf).
    { intros q' Hq'. apply Hall. now right. }
    exists st'. split.
    + simpl for_each. now rewrite (bind_done _ _ _ _ _ Hq).
    + rewrite Hf, Hfs, (handles_cons q rest). now rewrite app_assoc.
Qed.

(** C6, as the script has it: an entry of the list that is a dictionary whose
    ['object'] is absent or [None] is passed over without a fetch, a line of
    output or a write to a gauge, and every cycle, and every run of cycles,
    goes exactly as on the list of the entries with a live handle, in which
    it does not occur. When every entry with a live handle is a device entry
    whose answer the loop gets over, the pass fetches from each of them once,
    in the order of the list, and the cycle comes to its sleep. An entry
    comes out of the initialisation without a handle when its connection
    raised [DeviceException], and when it was skipped and is a dictionary
    that brought no ['object'] of its own. *)
Theorem device_without_handle_is_skipped
  (fetch : handle -> fetch_result) (world : nat -> handle -> fetch_result)
  (purifiers : list pyval) (interval p : pyval) (st : state) :
  In p purifiers ->
  handle_absent p = true ->
  poll_device fetch p st = (st, Done tt) /\
  handle_of p = None /\
  ~ In p (List.filter live purifiers) /\
  poll_cycle fetch purifiers interval st =
  poll_cycle fetch (List.filter live purifiers) interval st /\
  (forall c n,
     poll_loop world purifiers interval c n st =
     poll_loop world (List.filter live purifiers) interval c n st) /\
  ((forall q, In q (List.filter live purifiers) ->
      exists h, device_entry q h /\ survivable (fetch h)) ->
   exists st',
     for_each purifiers (poll_device fetch) st = (st', Done tt) /\
     fetches (events st')
     = fetches (events st) ++ handles (List.filter live purifiers) /\
     events (fst (poll_cycle fetch purifiers interval st))
     = events st' ++ [Sleep interval]) /\
  (forall i d st0,
     all_in ["name"; "ip"; "token"] (PDict d) = inr false ->
     dict_get "object" d = None ->
     exists st1 q, init_purifier i (PDict d) st0 = (st1, Done q) /\
                   handle_absent q = true) /\
  (forall i d name ip token e st0,
     dict_get "name" d = Some name ->
     dict_get "ip" d = Some ip ->
     dict_get "token" d = Some token ->
     MiotDevice i ip token = inl e ->
     isinstance e DeviceException = true ->
     exists st1 q, init_purifier i (PDict d) st0 = (st1, Done q) /\
                   handle_absent q = true).
Proof.
  intros Hin Habsent. split; [now apply poll_device_absent|].
  split.
  { destruct p; try discriminate. unfold handle_absent in Habsent. simpl.
    now destruct (dict_get_or "object" PNone d). }
  split.
  { intros Hf. apply List.filter_In in Hf as [_ Hl].
    unfold live in Hl. now rewrite Habsent in Hl. }
  split; [apply poll_cycle_live|].
  split; [intros c n; apply poll_loop_live|].
  split; [|split].
  - intros Hlive.
    destruct (pass_over_devices fetch purifiers st) as (st' & Hrun & Hf).
    { intros q Hq. destruct (handle_absent q) eqn:Hqa; [now left|].
      right. apply Hlive. apply List.filter_In. split; [exact Hq|].
      unfold live. now rewrite Hqa. }
    exists st'. split; [exact Hrun|]. split.
    + now rewrite handles_live.
    + rewrite (poll_cycle_after_devices _ _ _ _ _ Hrun). apply sleep_events.
  - intros i d st0 Hall Hobj.
    destruct (init_purifier_skipped i d st0 Hall) as [line Hrun].
    exists (logged line st0), (PDict d). split; [exact Hrun|].
    unfold handle_absent, dict_get_or. now rewrite Hobj.
  - intros i d name ip token e st0 Hname Hip Htoken Hconn Hexc.
    destruct (init_purifier_failed i d name ip token e st0 Hname Hip Htoken
                Hconn Hexc) as [st1 Hrun].
    exists st1, (PDict (dict_set "object" PNone d)). split; [exact Hrun|].
    unfold handle_absent, dict_get_or. now rewrite dict_get_set.
Qed.

End Published.

(** * The properties at work in the laboratory *)

(** The first scenario of the specification: after the first cycle power is
    1 and the air quality index 12; after the second, in which the device
    cannot be reached, they still are, and the failure has been printed. *)
Example scenario_stale_but_present :
  let run := main (H:=lab) ["export.py"; "config.json"]
               (fun _ => inr scenario_config) scenario_world 2 initial_state in
  registry (fst run) !! (power, "living_room") = Some float_one /\
  registry (fst run) !! (aqi, "living_room")
  = Some (binary_normalize 53 1024 12 0 false) /\
  In (Stdout "Error updating 'living_room': No response from the device")
     (events (fst run)).
Proof. vm_compute. repeat split; auto 20. Qed.

(** The second scenario, with a device that cannot be connected to as well:
    both are warned about, and the two others are polled. *)
Example scenario_skipped_entries :
  let run := main (H:=lab) ["export.py"; "config.json"]
               (fun _ => inr house_config) (fun _ _ => Returned []) 1
               initial_state in
  List.filter (fun ev => match ev with Fetch _ => true | _ => false end)
    (events (fst run)) = [Fetch 2%nat; Fetch 3%nat].
Proof. vm_compute. reflexivity. Qed.

Lemma error_status_reading_is_discarded_witness :
  dict_get "code" error_entry = Some (PInt (-4001)) /\
  eq_zero (PInt (-4001)) = false /\
  status_of ([reading "power" 0 (PBool true)] ++ PDict error_entry
             :: [reading "aqi" 0 (PInt 12)])
  = status_of ([reading "power" 0 (PBool true)] ++ [reading "aqi" 0 (PInt 12)]) /\
  process_properties (H:=lab) (PStr "living_room")
    ([reading "power" 0 (PBool true)] ++ PDict error_entry
     :: [reading "aqi" 0 (PInt 12)]) initial_state
  = process_properties (H:=lab) (PStr "living_room")
      ([reading "power" 0 (PBool true)] ++ [reading "aqi" 0 (PInt 12)])
      initial_state.
Proof.
  split; [reflexivity|]. split; [reflexivity|].
  apply (@error_status_reading_is_discarded lab (PStr "living_room")
           [reading "power" 0 (PBool true)] [reading "aqi" 0 (PInt 12)]
           error_entry (PInt (-4001)) initial_state); reflexivity.
Defined.

Lemma reading_without_status_code_is_discarded_witness :
  dict_get "code" codeless_entry = None /\
  process_properties (H:=lab) (PStr "living_room")
    ([reading "power" 0 (PBool true)] ++ PDict codeless_entry :: []) initial_state
  = process_properties (H:=lab) (PStr "living_room")
      ([reading "power" 0 (PBool true)] ++ []) initial_state.
Proof.
  split; [reflexivity|].
  apply (@reading_without_status_code_is_discarded lab (PStr "living_room")
           [reading "power" 0 (PBool true)] [] codeless_entry initial_state).
  reflexivity.
Defined.

Lemma buzzer_is_unmapped : unmapped buzzer_entry.
Proof.
  intros k Hk Hdid. injection Hdid as <-. vm_compute in Hk.
  intuition discriminate.
Defined.

Lemma unmapped_reading_is_discarded_witness :
  unmapped buzzer_entry /\
  process_properties (H:=lab) (PStr "living_room")
    ([reading "power" 0 (PBool true)] ++ PDict buzzer_entry
     :: [reading "aqi" 0 (PInt 12)]) initial_state
  = process_properties (H:=lab) (PStr "living_room")
      ([reading "power" 0 (PBool true)] ++ [reading "aqi" 0 (PInt 12)])
      initial_state.
Proof.
  split; [exact buzzer_is_unmapped|].
  apply (@unmapped_reading_is_discarded lab (PStr "living_room")
           [reading "power" 0 (PBool true)] [reading "aqi" 0 (PInt 12)]
           buzzer_entry initial_state buzzer_is_unmapped).
  right. exists (PStr "buzzer"), (PBool true). repeat split; reflexivity.
Defined.

Lemma power_gauge_is_one_or_zero_witness :
  one_healthy 0%nat
  = Returned [reading "power" 0 (PBool true); reading "aqi" 0 (PInt 12)] /\
  status_get "power" [(PStr "power", PBool true); (PStr "aqi", PInt 12)]
  = Some (PBool true) /\
  registry (fst (poll_device (H:=lab) one_healthy
                   (PDict (connected 0%nat living_room_entry)) initial_state))
    !! (power, "living_room") = Some float_one.
Proof.
  split; [reflexivity|]. split; [reflexivity|].
  apply (@power_gauge_is_one_or_zero lab one_healthy
           (connected 0%nat living_room_entry) 0%nat (PStr "living_room")
           [reading "power" 0 (PBool true); reading "aqi" 0 (PInt 12)]
           [(PStr "power", PBool true); (PStr "aqi", PInt 12)]
           (PBool true) initial_state); reflexivity.
Defined.

Lemma last_surviving_reading_wins_witness :
  status_of ([reading "aqi" 0 (PInt 10)] ++ reading "aqi" 0 (PInt 12)
             :: [reading "aqi" (-4001) PNone; reading "power" 0 (PBool true)])
  = inr [(PStr "aqi", PInt 10); (PStr "aqi", PInt 12);
         (PStr "power", PBool true)] /\
  survives (reading_entry "aqi" 0 (PInt 12)) = true /\
  gauge_rows
  = firstn 2 gauge_rows ++ ("aqi", aqi, fun v : pyval => v) :: skipn 3 gauge_rows /\
  status_get "aqi"
    [(PStr "aqi", PInt 10); (PStr "aqi", PInt 12); (PStr "power", PBool true)]
  = Some (PInt 12) /\
  registry (fst (process_properties (H:=lab) (PStr "living_room")
                   ([reading "aqi" 0 (PInt 10)] ++ reading "aqi" 0 (PInt 12)
                    :: [reading "aqi" (-4001) PNone;
                        reading "power" 0 (PBool true)])
                   initial_state))
    !! (aqi, "living_room")
  = Some (binary_normalize 53 1024 12 0 false).
Proof.
  assert (Hlater : forall later,
            In (PDict later)
              [reading "aqi" (-4001) PNone; reading "power" 0 (PBool true)] ->
            survives later = true -> dict_get "did" later <> Some (PStr "aqi")).
  { intros later Hin Hs Hdid.
    destruct Hin as [Heq|[Heq|[]]]; injection Heq as <-; discriminate. }
  assert (Hacc : accepted (H:=lab)
            [(PStr "aqi", PInt 10); (PStr "aqi", PInt 12);
             (PStr "power", PBool true)] (firstn 2 gauge_rows)).
  { intros row w Hin Hget.
    destruct Hin as [<-|[<-|[]]]; vm_compute in Hget; [|discriminate].
    injection Hget as <-. eexists. reflexivity. }
  destruct (@last_surviving_reading_wins lab (PStr "living_room")
              [reading "aqi" 0 (PInt 10)]
              [reading "aqi" (-4001) PNone; reading "power" 0 (PBool true)]
              (reading_entry "aqi" 0 (PInt 12)) "aqi" (PInt 12)
              [(PStr "aqi", PInt 10); (PStr "aqi", PInt 12);
               (PStr "power", PBool true)]
              eq_refl eq_refl eq_refl eq_refl Hlater)
    as (Hget & Hpublished & _).
  destruct (Hpublished aqi (fun v => v) (firstn 2 gauge_rows)
              (skipn 3 gauge_rows) initial_state eq_refl Hacc)
    as (Haccepted & _).
  split; [reflexivity|]. split; [reflexivity|]. split; [reflexivity|].
  split; [exact Hget|].
  exact (Haccepted (binary_normalize 53 1024 12 0 false) eq_refl).
Defined.

Lemma fetch_updates_only_own_points_witness :
  py_subscript (PDict (connected 0%nat living_room_entry)) "name"
  = inr (PStr "living_room") /\
  "living_room" <> "bedroom" /\
  forall gauge st,
    registry (fst (poll_device (H:=lab) one_healthy
                     (PDict (connected 0%nat living_room_entry)) st))
      !! (gauge, "bedroom")
    = registry st !! (gauge, "bedroom").
Proof.
  split; [reflexivity|]. split; [discriminate|].
  intros gauge st.
  apply (@fetch_updates_only_own_points lab one_healthy
           (PDict (connected 0%nat living_room_entry)) "living_room" "bedroom" st);
    [reflexivity | discriminate].
Defined.

Lemma failed_fetch_leaves_points_stale_witness :
  dict_get "object" (connected 1%nat bedroom_entry) = Some (PDevice 1%nat) /\
  dict_get "name" (connected 1%nat bedroom_entry) = Some (PStr "bedroom") /\
  one_healthy 1%nat = Failed unreachable /\
  forall st,
    registry (fst (poll_device (H:=lab) one_healthy
                     (PDict (connected 1%nat bedroom_entry)) st)) = registry st.
Proof.
  split; [reflexivity|]. split; [reflexivity|]. split; [reflexivity|].
  intros st.
  apply (@failed_fetch_leaves_points_stale lab one_healthy
           [PDict (connected 0%nat living_room_entry)] [] (connected 1%nat bedroom_entry)
           1%nat (PStr "bedroom") (PInt 1) unreachable st); reflexivity.
Defined.

Lemma caught_failure_stays_in_the_cycle_witness :
  poll_body (H:=lab) one_healthy (PDevice 1%nat) (PStr "bedroom") initial_state
  = ({| registry := ∅; events := [Fetch 1%nat] |}, Raised unreachable) /\
  isinstance unreachable DeviceException || isinstance unreachable OSError = true /\
  exists pre post,
    poll_device (H:=lab) one_healthy (PDict (connected 1%nat bedroom_entry))
      initial_state
    = (logged (pre +:+ "bedroom" +:+ post)
         {| registry := ∅; events := [Fetch 1%nat] |}, Done tt).
Proof.
  split; [reflexivity|]. split; [reflexivity|].
  destruct (@caught_failure_stays_in_the_cycle lab one_healthy
              (connected 1%nat bedroom_entry) (PDevice 1%nat) (PStr "bedroom")
              (PInt 1) [] unreachable initial_state
              {| registry := ∅; events := [Fetch 1%nat] |}
              eq_refl ltac:(discriminate) eq_refl eq_refl eq_refl)
    as (pre & post & Hdev & _).
  exists pre, post. exact Hdev.
Defined.

Lemma one_healthy_is_survivable (h : handle) : survivable (H:=lab) (one_healthy h).
Proof.
  destruct h as [|h]; [|reflexivity].
  exists [(PStr "power", PBool true); (PStr "aqi", PInt 12)].
  split; [reflexivity|]. intros row w Hin Hget.
  repeat (destruct Hin as [<-|Hin];
          [vm_compute in Hget; try discriminate;
           injection Hget as <-; eexists; reflexivity|]).
  destruct Hin.
Defined.

Lemma device_without_handle_is_skipped_witness :
  In (PDict (dict_set "object" PNone attic_entry))
     [PDict (dict_set "object" PNone attic_entry);
      PDict (connected 0%nat living_room_entry);
      PDict (connected 1%nat bedroom_entry)] /\
  handle_absent (PDict (dict_set "object" PNone attic_entry)) = true /\
  exists st',
    for_each
      [PDict (dict_set "object" PNone attic_entry);
       PDict (connected 0%nat living_room_entry);
       PDict (connected 1%nat bedroom_entry)]
      (poll_device (H:=lab) one_healthy) initial_state = (st', Done tt) /\
    fetches (events st') = [0%nat; 1%nat] /\
    events (fst (poll_cycle (H:=lab) one_healthy
                   [PDict (dict_set "object" PNone attic_entry);
                    PDict (connected 0%nat living_room_entry);
                    PDict (connected 1%nat bedroom_entry)]
                   (PInt 1) initial_state))
    = events st' ++ [Sleep (PInt 1)].
Proof.
  split; [now left|]. split; [reflexivity|].
  destruct (@device_without_handle_is_skipped lab one_healthy
              (fun _ => one_healthy)
              [PDict (dict_set "object" PNone attic_entry);
               PDict (connected 0%nat living_room_entry);
               PDict (connected 1%nat bedroom_entry)]
              (PInt 1) (PDict (dict_set "object" PNone attic_entry))
              initial_state (or_introl eq_refl) eq_refl)
    as (_ & _ & _ & _ & _ & Hpass & _).
  apply Hpass. intros q Hq.
  destruct Hq as [<-|[<-|[]]].
  - exists 0%nat. split; [|apply one_healthy_is_survivable].
    exists (connected 0%nat living_room_entry), (PStr "living_room").
    repeat split.
  - exists 1%nat. split; [|apply one_healthy_is_survivable].
    exists (connected 1%nat bedroom_entry), (PStr "bedroom").
    repeat split.
Defined.

Lemma startup_fatal_exits_witness :
  startup_fatal (H:=lab) ["export.py"] (fun _ => inr scenario_config) /\
  exists diagnostic status,
    run_script
      (main (H:=lab) ["export.py"] (fun _ => inr scenario_config)
         scenario_world 1)
      initial_state
    = (complained diagnostic initial_state, status) /\ status <> 0.
Proof.
  assert (Hfatal : startup_fatal (H:=lab) ["export.py"]
                     (fun _ => inr scenario_config)).
  { apply no_config_argument. simpl. lia. }
  split; [exact Hfatal|].
  exact (@startup_fatal_exits lab ["export.py"] (fun _ => inr scenario_config)
           scenario_world 1 initial_state Hfatal).
Defined.

(** C1 as it is written does not hold: a reading that passed line 99 and has
    no value raises [KeyError] while the answer of device 0 is processed;
    nothing catches it, nothing is printed, device 1 is not polled and the
    cycle does not reach its sleep. *)
Lemma uncaught_failure_leaves_the_cycle :
  let run := poll_cycle (H:=lab) one_malformed
               [PDict (connected 0%nat living_room_entry);
                PDict (connected 1%nat bedroom_entry)]
               (PInt 1) initial_state in
  snd run = Raised (mk_exn KeyError "'value'") /\
  events (fst run) = [Fetch 0%nat] /\
  registry (fst run) = ∅.
Proof. vm_compute. repeat split. Qed.

(** ** The further properties in the laboratory *)

Lemma published_points_are_never_removed_witness :
  is_Some (registry old_state !! (power, "garage")) /\
  is_Some (registry (fst (main (H:=lab) ["export.py"; "config.json"]
                            (fun _ => inr scenario_config) scenario_world 2
                            old_state))
             !! (power, "garage")).
Proof.
  assert (Hold : is_Some (registry old_state !! (power, "garage"))).
  { exists float_one. reflexivity. }
  split; [exact Hold|].
  exact (@published_points_are_never_removed lab ["export.py"; "config.json"]
           (fun _ => inr scenario_config) scenario_world 2 old_state
           power "garage" Hold).
Defined.

Lemma only_the_eleven_gauges_are_written_witness :
  ~ In "mi_purifier_up" gauge_names /\
  forall st,
    registry (fst (poll_loop (H:=lab) scenario_world
                     [PDict (connected 0%nat living_room_entry)] (PInt 1)
                     0 2 st))
      !! ("mi_purifier_up", "living_room")
    = registry st !! ("mi_purifier_up", "living_room").
Proof.
  assert (Hother : ~ In "mi_purifier_up" gauge_names).
  { vm_compute. intuition discriminate. }
  split; [exact Hother|]. intros st.
  exact (@only_the_eleven_gauges_are_written lab scenario_world
           [PDict (connected 0%nat living_room_entry)] (PInt 1) 0 2 st
           "mi_purifier_up" "living_room" Hother).
Defined.

Lemma key_in_status_iff_a_reading_survives_witness :
  status_of [reading "power" 0 (PBool true); PDict error_entry]
  = inr [(PStr "power", PBool true)] /\
  (is_Some (status_get "mode" [(PStr "power", PBool true)]) <->
   exists prop,
     In (PDict prop) [reading "power" 0 (PBool true); PDict error_entry] /\
     survives prop = true /\ dict_get "did" prop = Some (PStr "mode")).
Proof.
  split; [reflexivity|].
  apply (@key_in_status_iff_a_reading_survives
           [reading "power" 0 (PBool true); PDict error_entry]
           [(PStr "power", PBool true)] "mode").
  reflexivity.
Defined.

Lemma unmentioned_gauge_keeps_its_value_witness :
  one_healthy 0%nat
  = Returned [reading "power" 0 (PBool true); reading "aqi" 0 (PInt 12)] /\
  In ("mode", mode, fun v : pyval => v) gauge_rows /\
  forall st,
    registry (fst (poll_device (H:=lab) one_healthy
                     (PDict (connected 0%nat living_room_entry)) st))
      !! (mode, "living_room")
    = registry st !! (mode, "living_room").
Proof.
  assert (Hrow : In ("mode", mode, fun v : pyval => v) gauge_rows)
    by (right; left; reflexivity).
  split; [reflexivity|]. split; [exact Hrow|]. intros st.
  apply (@unmentioned_gauge_keeps_its_value lab one_healthy
           (connected 0%nat living_room_entry) 0%nat (PStr "living_room")
           [reading "power" 0 (PBool true); reading "aqi" 0 (PInt 12)]
           "mode" mode (fun v => v) st); try reflexivity; [exact Hrow|].
  intros prop Hin Hs Hdid.
  destruct Hin as [Heq|[Heq|[]]]; injection Heq as <-; discriminate.
Defined.

Lemma processing_again_changes_nothing_witness :
  let st1 := fst (process_properties (H:=lab) (PStr "living_room")
                    [reading "power" 0 (PBool true); reading "aqi" 0 (PInt 12)]
                    initial_state) in
  process_properties (H:=lab) (PStr "living_room")
    [reading "power" 0 (PBool true); reading "aqi" 0 (PInt 12)] initial_state
  = (st1, Done tt) /\
  process_properties (H:=lab) (PStr "living_room")
    [reading "power" 0 (PBool true); reading "aqi" 0 (PInt 12)] st1
  = (st1, Done tt).
Proof.
  intros st1.
  assert (Hrun : process_properties (H:=lab) (PStr "living_room")
            [reading "power" 0 (PBool true); reading "aqi" 0 (PInt 12)]
            initial_state = (st1, Done tt)) by reflexivity.
  split; [exact Hrun|].
  exact (@processing_again_changes_nothing lab (PStr "living_room")
           [reading "power" 0 (PBool true); reading "aqi" 0 (PInt 12)]
           initial_state st1 Hrun).
Defined.


Lemma other_connection_failure_ends_initialisation_witness :
  isinstance (mk_exn TypeError "token must be a string") DeviceException = false /\
  snd (init_purifiers (H:=strict_lab) 0
         ([PDict living_room_entry] ++ PDict numbered_entry
          :: [PDict bedroom_entry]) initial_state)
  = Raised (mk_exn TypeError "token must be a string").
Proof.
  split; [reflexivity|].
  rewrite (@other_connection_failure_ends_initialisation strict_lab 0%nat
             [PDict living_room_entry] [PDict bedroom_entry] numbered_entry
             (PStr "hall") (PStr "10.0.0.8") (PInt 42)
             (mk_exn TypeError "token must be a string") initial_state
             (fst (init_purifiers (H:=strict_lab) 0 [PDict living_room_entry]
                     initial_state))
             [PDict (connected 0%nat living_room_entry)]
             eq_refl eq_refl eq_refl eq_refl eq_refl eq_refl).
  reflexivity.
Defined.

Lemma incomplete_entry_is_not_connected_witness :
  In "token" ["name"; "ip"; "token"] /\
  dict_get "token" tokenless_entry = None /\
  init_purifier (H:=lab) 0 (PDict tokenless_entry) initial_state
  = (logged
       "Warning: Skipping a purifier entry due to missing 'name', 'ip', or 'token'."
       initial_state, Done (PDict tokenless_entry)).
Proof.
  assert (Hk : In "token" ["name"; "ip"; "token"]) by (right; right; now left).
  split; [exact Hk|]. split; [reflexivity|].
  exact (@incomplete_entry_is_not_connected lab 0%nat tokenless_entry "token"
           initial_state Hk eq_refl).
Defined.

Lemma initialisation_keeps_the_list_witness :
  List.Forall2 init_related
    [PDict tokenless_entry; PDict attic_entry; PDict living_room_entry]
    [PDict tokenless_entry; PDict (dict_set "object" PNone attic_entry);
     PDict (connected 2%nat living_room_entry)] /\
  length [PDict tokenless_entry; PDict (dict_set "object" PNone attic_entry);
          PDict (connected 2%nat living_room_entry)]
  = length [PDict tokenless_entry; PDict attic_entry; PDict living_room_entry].
Proof.
  apply (@initialisation_keeps_the_list lab
           [PDict tokenless_entry; PDict attic_entry; PDict living_room_entry]
           0%nat initial_state
           (fst (init_purifiers (H:=lab) 0
                   [PDict tokenless_entry; PDict attic_entry;
                    PDict living_room_entry] initial_state))).
  reflexivity.
Defined.

Lemma started_script_is_configured_witness :
  exists cfg entries port evs,
    (2 <= length ["export.py"; "config.json"; "9100"])%nat /\
    inr (B:=pyval) (A:=exn) scenario_config = inr (PDict cfg) /\
    dict_get "purifiers" cfg = Some (PList entries) /\
    entries <> [] /\
    List.Forall2 init_related entries [PDict (connected 0%nat living_room_entry)] /\
    PInt 1 = dict_get_or "polling_interval_seconds" (PInt 60) cfg /\
    ((length ["export.py"; "config.json"; "9100"] <= 2)%nat ->
     port = dict_get_or "prometheus_port" (PInt 8000) cfg) /\
    ((2 < length ["export.py"; "config.json"; "9100"])%nat ->
     exists n, lab_int "9100" = Some n /\ port = PInt n) /\
    @start_http_server lab port = None /\
    events (fst (startup (H:=lab) ["export.py"; "config.json"; "9100"]
                   (fun _ => inr scenario_config) initial_state))
    = (events initial_state ++ evs) ++ [StartHttpServer port] /\
    List.Forall startup_event evs.
Proof.
  exact (@started_script_is_configured lab ["export.py"; "config.json"; "9100"]
           (fun _ => inr scenario_config) initial_state
           (fst (startup (H:=lab) ["export.py"; "config.json"; "9100"]
                   (fun _ => inr scenario_config) initial_state))
           [PDict (connected 0%nat living_room_entry)] (PInt 1) eq_refl).
Defined.

Lemma entry_that_is_no_dictionary_stops_the_loop_witness :
  init_purifier (H:=lab) 0 (PStr "living_room") initial_state
  = (logged
       "Warning: Skipping a purifier entry due to missing 'name', 'ip', or 'token'."
       initial_state, Done (PStr "living_room")) /\
  exists st3 e,
    poll_cycle (H:=lab) one_healthy
      [PDict (connected 0%nat living_room_entry); PStr "living_room"] (PInt 1)
      initial_state = (st3, Raised e) /\
    isinstance e DeviceException = false /\ isinstance e OSError = false.
Proof.
  split; [reflexivity|].
  apply (@entry_that_is_no_dictionary_stops_the_loop lab 0%nat
           (PStr "living_room") (PStr "living_room") initial_state
           (logged
              "Warning: Skipping a purifier entry due to missing 'name', 'ip', or 'token'."
              initial_state));
    [discriminate | reflexivity | right; now left].
Defined.

(** C6 as it is written does not hold for every entry that was skipped: an
    entry without a token that brings an ['object'] of its own, and an entry
    that is a string, get the warning of line 78 and then end the first cycle
    with [AttributeError], before the device after them is fetched from and
    before the sleep. *)
Lemma skipped_entry_ends_the_cycle :
  let warning :=
    Stdout "Warning: Skipping a purifier entry due to missing 'name', 'ip', or 'token'." in
  let stray := main (H:=lab) ["export.py"; "config.json"]
                 (fun _ => inr stray_config) all_healthy 1 initial_state in
  let str := main (H:=lab) ["export.py"; "config.json"]
               (fun _ => inr string_config) all_healthy 1 initial_state in
  (In warning (events (fst stray)) /\
   snd stray = Raised (mk_exn AttributeError
                         "object has no attribute 'get_properties_for_mapping'") /\
   fetches (events (fst stray)) = [] /\ sleeps (events (fst stray)) = []) /\
  (In warning (events (fst str)) /\
   snd str = Raised (mk_exn AttributeError "object has no attribute 'get'") /\
   fetches (events (fst str)) = [] /\ sleeps (events (fst str)) = []).
Proof. vm_compute. repeat split; auto. Qed.
